(** * WalletBlockchain: the light-client header-chain state machine

    A shallow embedding of [chia/wallet/wallet_blockchain.py] and the
    properties of its fork-choice engine.

    Conventions.
    - [uint32], [uint64], [uint128] and [bytes32] are Python classes whose
      constructors check the range, so a value of one of these types is
      always in range; they are modelled as [N].  Plain Python [int]s (the
      fork height, which may be [-1]) are [Z].
    - The instance's attributes form the record [WalletBlockchain]; every
      method is a function in the monad [M], which threads the instance and
      models Python exceptions as an explicit [Raise] outcome carrying the
      instance as it was when the exception left the method.
    - The key/value store, the header validator, the weight-proof verifier,
      the difficulty function, the fork-point function and the block-record
      constructor are collaborators that are not part of the file; they are
      the fields of the class [Collaborators]. *)

From Stdlib Require Import ZArith NArith Lia List String.
From stdpp Require Import base option gmap strings list relations.

Local Open Scope N_scope.

(** ** Data model *)

Abbreviation bytes32 := N.
Abbreviation uint32 := N.
Abbreviation uint64 := N.
Abbreviation uint128 := N.

(** Modelled from the spec: the [BlockRecord] class is not part of the file.
    It is the "summary of one header block's consensus-relevant fields:
    height, header hash, parent hash, cumulative weight, optional timestamp
    (present only if the block is a transaction block)".  The attribute
    [is_transaction_block], which the code reads next to [timestamp], is kept
    as a field of its own, so that nothing is assumed about how the two are
    related. *)
Module BlockRecord.
Record t := mk {
  header_hash : bytes32;
  prev_hash : bytes32;
  height : uint32;
  weight : uint128;
  timestamp : option uint64;
  is_transaction_block : bool
}.
End BlockRecord.

(** Modelled from the spec: the [HeaderBlock] class is not part of the file.
    Of a header block the code reads the header hash, the parent's hash, the
    height, the weight, the optional transaction-block part (for its
    timestamp) and the list of finished sub-slots. *)
Module FoliageTransactionBlock.
Record t := mk { timestamp : uint64 }.
End FoliageTransactionBlock.

Module HeaderBlock.
Record t := mk {
  header_hash : bytes32;
  prev_header_hash : bytes32;
  height : uint32;
  weight : uint128;
  foliage_transaction_block : option FoliageTransactionBlock.t;
  (* only [len(block.finished_sub_slots) > 0] is observed *)
  finished_sub_slots : list N
}.
End HeaderBlock.

(** Modelled from the spec: the [WeightProof] class is not part of the file.
    It holds "a sequence of recent chain data header blocks (the tail
    actually adopted) plus a succinct proof of older history". *)
Module WeightProof.
Record t := mk {
  (* the succinct part of the proof, opaque to this file *)
  sub_epochs : list N;
  recent_chain_data : list HeaderBlock.t
}.
End WeightProof.

(** Modelled from the spec: the result codes and the error codes are not
    part of the file; these are the ones the code and the spec name. *)
Inductive ReceiveBlockResult :=
| NEW_PEAK
| ADDED_AS_ORPHAN
| INVALID_BLOCK
| ALREADY_HAVE_BLOCK
| DISCONNECTED_BLOCK.

Inductive Err :=
| INVALID_PREV_BLOCK_HASH
| INVALID_POSPACE
| OTHER_ERR (n : N).

Record ValidationError := mkValidationError { code : Err }.

Record ConsensusConstants := mkConstants {
  SUB_SLOT_ITERS_STARTING : uint64;
  DIFFICULTY_STARTING : uint64
}.

(** What a slot of [_height_to_hash] holds.  The attribute is annotated
    [Dict[uint32, bytes32]], but Python does not enforce the annotation and
    [receive_block] stores a [BlockRecord] there. *)
Inductive HeightEntry :=
| EntryHash (h : bytes32)
| EntryRecord (r : BlockRecord.t).

(** ** The key/value store *)

Inductive StoredObject :=
| StoredWeightProof (wp : WeightProof.t)
| StoredHeaderBlock (b : HeaderBlock.t).

(** Modelled from the spec: the [KeyValStore] class is not part of the file.
    It is "a generic object get/set/remove interface", "generic typed
    persistence": a finite map from keys to objects, where [get_object]
    returns [None] for a key that holds nothing. *)
Abbreviation KeyValStore := (gmap string StoredObject).

Definition get_weight_proof (st : KeyValStore) (key : string) : option WeightProof.t :=
  match st !! key with
  | Some (StoredWeightProof wp) => Some wp
  | _ => None
  end.

Definition get_header_block (st : KeyValStore) (key : string) : option HeaderBlock.t :=
  match st !! key with
  | Some (StoredHeaderBlock b) => Some b
  | _ => None
  end.

Definition set_object (st : KeyValStore) (key : string) (o : StoredObject) : KeyValStore :=
  <[key := o]> st.

Definition remove_object (st : KeyValStore) (key : string) : KeyValStore :=
  delete key st.

(** ** The instance *)

Record WalletBlockchain := mkWalletBlockchain {
  constants : ConsensusConstants;
  _basic_store : KeyValStore;
  synced_weight_proof : option WeightProof.t;
  _peak : option HeaderBlock.t;
  _height_to_hash : gmap N HeightEntry;
  _block_records : gmap N BlockRecord.t;
  _latest_timestamp : uint64
}.

Definition with_store (st : KeyValStore) (s : WalletBlockchain) : WalletBlockchain :=
  mkWalletBlockchain (constants s) st (synced_weight_proof s) (_peak s)
    (_height_to_hash s) (_block_records s) (_latest_timestamp s).

Definition with_synced_weight_proof (wp : option WeightProof.t) (s : WalletBlockchain) :=
  mkWalletBlockchain (constants s) (_basic_store s) wp (_peak s)
    (_height_to_hash s) (_block_records s) (_latest_timestamp s).

Definition with_peak (p : option HeaderBlock.t) (s : WalletBlockchain) :=
  mkWalletBlockchain (constants s) (_basic_store s) (synced_weight_proof s) p
    (_height_to_hash s) (_block_records s) (_latest_timestamp s).

Definition with_height_to_hash (m : gmap N HeightEntry) (s : WalletBlockchain) :=
  mkWalletBlockchain (constants s) (_basic_store s) (synced_weight_proof s) (_peak s)
    m (_block_records s) (_latest_timestamp s).

Definition with_block_records (m : gmap N BlockRecord.t) (s : WalletBlockchain) :=
  mkWalletBlockchain (constants s) (_basic_store s) (synced_weight_proof s) (_peak s)
    (_height_to_hash s) m (_latest_timestamp s).

Definition with_latest_timestamp (t : uint64) (s : WalletBlockchain) :=
  mkWalletBlockchain (constants s) (_basic_store s) (synced_weight_proof s) (_peak s)
    (_height_to_hash s) (_block_records s) t.

(** ** Exceptions and the method monad *)

Inductive Exn :=
| KeyError
| IndexError
| AssertionError.

(** The result of running a method on an instance: it returns a value, or
    an exception leaves it, or the fuel of the model ran out before the
    method's loop ended (the Python loop may not terminate). *)
Inductive outcome (A : Type) :=
| Ret (a : A) (s : WalletBlockchain)
| Raise (e : Exn) (s : WalletBlockchain)
| OutOfFuel.
Arguments Ret {A} a s.
Arguments Raise {A} e s.
Arguments OutOfFuel {A}.

Definition M (A : Type) := WalletBlockchain -> outcome A.

Definition ret {A} (a : A) : M A := fun s => Ret a s.

Definition bind {A B} (m : M A) (k : A -> M B) : M B :=
  fun s =>
    match m s with
    | Ret a s' => k a s'
    | Raise e s' => Raise e s'
    | OutOfFuel => OutOfFuel
    end.

Definition raise {A} (e : Exn) : M A := fun s => Raise e s.
Definition get_self : M WalletBlockchain := fun s => Ret s s.
Definition modify (f : WalletBlockchain -> WalletBlockchain) : M unit :=
  fun s => Ret tt (f s).

Declare Scope method_scope.
Delimit Scope method_scope with method.
Notation "x <- m ;; k" := (bind m (fun x => k))
  (at level 100, m at next level, right associativity) : method_scope.
Notation "m ;; k" := (bind m (fun _ => k))
  (at level 100, right associativity) : method_scope.
Local Open Scope method_scope.

(** The state an outcome ends in, when it has one. *)
Definition final_state {A} (o : outcome A) : option WalletBlockchain :=
  match o with
  | Ret _ s => Some s
  | Raise _ s => Some s
  | OutOfFuel => None
  end.

(** [for x in xs: acc = body(x, acc)] *)
Fixpoint for_each {A B} (xs : list A) (body : A -> B -> M B) (acc : B) : M B :=
  match xs with
  | [] => ret acc
  | x :: xs' => acc' <- body x acc ;; for_each xs' body acc'
  end.

(** [xs[-1]] *)
Definition last_item {A} (xs : list A) : M A :=
  match last xs with
  | Some x => ret x
  | None => raise IndexError
  end.

(** ** The collaborators *)

Class Collaborators := {
  (* [self._weight_proof_handler.validate_weight_proof(weight_proof, True)]:
     the components [success] and [records] of its result *)
  validate_weight_proof : WeightProof.t -> bool * list BlockRecord.t;
  (* [validate_finished_header_block(constants, self, block, False,
     difficulty, sub_slot_iters, False)] *)
  validate_finished_header_block :
    ConsensusConstants -> WalletBlockchain -> HeaderBlock.t -> uint64 -> uint64 ->
    option uint64 * option ValidationError;
  (* [get_next_sub_slot_iters_and_difficulty(constants, new_slot, prev_b, self)] *)
  get_next_sub_slot_iters_and_difficulty :
    ConsensusConstants -> bool -> BlockRecord.t -> WalletBlockchain -> uint64 * uint64;
  (* [find_fork_point_in_chain(self, block_record, self._peak)] *)
  find_fork_point_in_chain : WalletBlockchain -> BlockRecord.t -> HeaderBlock.t -> Z;
  (* [block_to_block_record(constants, self, required_iters, None, block)] *)
  block_to_block_record :
    ConsensusConstants -> WalletBlockchain -> uint64 -> HeaderBlock.t -> BlockRecord.t
}.

(** ** The methods *)

Section Methods.
Context `{Collaborators}.

Definition contains_block (s : WalletBlockchain) (header_hash : bytes32) : bool :=
  bool_decide (is_Some (_block_records s !! header_hash)).

Definition contains_height (s : WalletBlockchain) (height : uint32) : bool :=
  bool_decide (is_Some (_height_to_hash s !! height)).

Definition height_to_hash (height : uint32) : M HeightEntry :=
  fun s =>
    match _height_to_hash s !! height with
    | Some e => Ret e s
    | None => Raise KeyError s
    end.

Definition block_record (header_hash : bytes32) : M BlockRecord.t :=
  fun s =>
    match _block_records s !! header_hash with
    | Some r => Ret r s
    | None => Raise KeyError s
    end.

Definition try_block_record (s : WalletBlockchain) (header_hash : bytes32)
  : option BlockRecord.t :=
  if contains_block s header_hash then _block_records s !! header_hash else None.

Definition add_block_record (block_record : BlockRecord.t) : M unit :=
  modify (fun s =>
    with_block_records
      (<[BlockRecord.header_hash block_record := block_record]> (_block_records s)) s).

Definition get_peak_block (s : WalletBlockchain) : option HeaderBlock.t :=
  match _peak s with
  | Some p => Some p
  | None => get_header_block (_basic_store s) "PEAK_BLOCK"
  end.

Definition get_peak_height (s : WalletBlockchain) : uint32 :=
  match _peak s with
  | None => 0
  | Some p => HeaderBlock.height p
  end.

Definition get_latest_timestamp (s : WalletBlockchain) : uint64 :=
  _latest_timestamp s.

Definition set_peak_block (block : HeaderBlock.t) (timestamp : option uint64) : M unit :=
  modify (fun s =>
    with_store (set_object (_basic_store s) "PEAK_BLOCK" (StoredHeaderBlock block)) s) ;;
  modify (with_peak (Some block)) ;;
  match timestamp with
  | Some t => modify (with_latest_timestamp t)
  | None =>
      match HeaderBlock.foliage_transaction_block block with
      | Some ftb => modify (with_latest_timestamp (FoliageTransactionBlock.timestamp ftb))
      | None => ret tt
      end
  end.

(** [del self._height_to_hash[uint32(h)]]; [h] comes from a range between 0
    and the peak's height, so [uint32(h)] is in range. *)
Definition del_height (h : Z) : M unit :=
  fun s =>
    match _height_to_hash s !! Z.to_N h with
    | Some _ => Ret tt (with_height_to_hash (delete (Z.to_N h) (_height_to_hash s)) s)
    | None => Raise KeyError s
    end.

(** [range(lo, hi)] *)
Definition range (lo hi : Z) : list Z := seqZ lo (hi - lo).

Definition _rollback_to_height (height : Z) : M unit :=
  self <- get_self ;;
  match _peak self with
  | None => ret tt
  | Some peak =>
      for_each (range (Z.max 0 height) (Z.of_N (HeaderBlock.height peak) + 1))
        (fun h _ => del_height h) tt ;;
      modify (fun s => with_store (remove_object (_basic_store s) "PEAK_BLOCK") s)
  end.

(** The body of the [for record in records] loop of [new_weight_proof];
    the accumulator is the local [latest_timestamp]. *)
Definition apply_record (record : BlockRecord.t) (latest_timestamp : uint64) : M uint64 :=
  modify (fun s =>
    with_height_to_hash
      (<[BlockRecord.height record := EntryHash (BlockRecord.header_hash record)]>
         (_height_to_hash s)) s) ;;
  add_block_record record ;;
  if BlockRecord.is_transaction_block record then
    match BlockRecord.timestamp record with
    | None => raise AssertionError
    | Some t => if latest_timestamp <? t then ret t else ret latest_timestamp
    end
  else ret latest_timestamp.

Definition new_weight_proof (weight_proof : WeightProof.t)
    (records : option (list BlockRecord.t)) : M unit :=
  self <- get_self ;;
  stale <-
    match get_peak_block self with
    | None => ret false
    | Some peak =>
        tail <- last_item (WeightProof.recent_chain_data weight_proof) ;;
        ret (HeaderBlock.weight tail <=? HeaderBlock.weight peak)
    end ;;
  if (stale : bool) then ret tt
  else
    modify (with_synced_weight_proof (Some weight_proof)) ;;
    modify (fun s =>
      with_store
        (set_object (_basic_store s) "SYNCED_WEIGHT_PROOF" (StoredWeightProof weight_proof))
        s) ;;
    self <- get_self ;;
    let latest_timestamp := _latest_timestamp self in
    records <-
      match records with
      | Some records => ret records
      | None =>
          let '(success, records) := validate_weight_proof weight_proof in
          if success then ret records else raise AssertionError
      end ;;
    latest_timestamp <- for_each records apply_record latest_timestamp ;;
    tail <- last_item (WeightProof.recent_chain_data weight_proof) ;;
    set_peak_block tail (Some latest_timestamp).

(** The [while curr_record.height > fork_height] loop of [receive_block];
    it returns the local [latest_timestamp]. *)
Fixpoint repopulate (fuel : nat) (fork_height : Z) (curr_record : BlockRecord.t)
    (latest_timestamp : uint64) : M uint64 :=
  if (Z.of_N (BlockRecord.height curr_record) >? fork_height)%Z then
    match fuel with
    | O => fun _ => OutOfFuel
    | S fuel' =>
        modify (fun s =>
          with_height_to_hash
            (<[BlockRecord.height curr_record := EntryRecord curr_record]>
               (_height_to_hash s)) s) ;;
        let latest_timestamp :=
          match BlockRecord.timestamp curr_record with
          | Some t => if latest_timestamp <? t then t else latest_timestamp
          | None => latest_timestamp
          end in
        if BlockRecord.height curr_record =? 0 then ret latest_timestamp
        else
          curr_record <- block_record (BlockRecord.prev_hash curr_record) ;;
          repopulate fuel' fork_height curr_record latest_timestamp
    end
  else ret latest_timestamp.

(** The part of [receive_block] after the block record has been built. *)
Definition adopt (fuel : nat) (block : HeaderBlock.t) (block_record : BlockRecord.t)
  : M (ReceiveBlockResult * option Err) :=
  add_block_record block_record ;;
  self <- get_self ;;
  match _peak self with
  | None =>
      let latest_timestamp :=
        if BlockRecord.is_transaction_block block_record
        then BlockRecord.timestamp block_record else None in
      modify (fun s =>
        with_height_to_hash
          (<[BlockRecord.height block_record :=
               EntryHash (BlockRecord.header_hash block_record)]> (_height_to_hash s)) s) ;;
      set_peak_block block latest_timestamp ;;
      ret (NEW_PEAK, None)
  | Some peak =>
      if HeaderBlock.weight peak <? BlockRecord.weight block_record then
        let fork_height :=
          if BlockRecord.prev_hash block_record =? HeaderBlock.header_hash peak
          then Z.of_N (HeaderBlock.height peak)
          else find_fork_point_in_chain self block_record peak in
        _rollback_to_height fork_height ;;
        self <- get_self ;;
        latest_timestamp <-
          repopulate fuel fork_height block_record (_latest_timestamp self) ;;
        set_peak_block block (Some latest_timestamp) ;;
        ret (NEW_PEAK, None)
      else ret (ADDED_AS_ORPHAN, None)
  end.

Definition receive_block (fuel : nat) (block : HeaderBlock.t)
  : M (ReceiveBlockResult * option Err) :=
  self <- get_self ;;
  if contains_block self (HeaderBlock.header_hash block) then ret (ALREADY_HAVE_BLOCK, None)
  else
    let params :=
      if HeaderBlock.height block =? 0 then
        Some (SUB_SLOT_ITERS_STARTING (constants self), DIFFICULTY_STARTING (constants self))
      else
        match try_block_record self (HeaderBlock.prev_header_hash block) with
        | None => None
        | Some prev_b =>
            Some (get_next_sub_slot_iters_and_difficulty (constants self)
                    (0 <? N.of_nat (length (HeaderBlock.finished_sub_slots block)))
                    prev_b self)
        end in
    match params with
    | None => ret (DISCONNECTED_BLOCK, Some INVALID_PREV_BLOCK_HASH)
    | Some (sub_slot_iters, difficulty) =>
        match validate_finished_header_block (constants self) self block
                difficulty sub_slot_iters with
        | (_, Some error) => ret (INVALID_BLOCK, Some (code error))
        | (None, None) => ret (INVALID_BLOCK, Some INVALID_POSPACE)
        | (Some required_iters, None) =>
            adopt fuel block
              (block_to_block_record (constants self) self required_iters block)
        end
    end.

(** [WalletBlockchain.create(_basic_store, constants, weight_proof_handler)] *)
Definition create (_basic_store : KeyValStore) (constants : ConsensusConstants)
  : outcome WalletBlockchain :=
  let synced := get_weight_proof _basic_store "SYNCED_WEIGHT_PROOF" in
  let self :=
    mkWalletBlockchain constants _basic_store synced None ∅ ∅ 0 in
  let self := with_peak (get_peak_block self) self in
  (match synced with
   | Some wp => new_weight_proof wp None
   | None => ret tt
   end ;;
   get_self) self.

End Methods.

(** ** Vocabulary of the properties *)

Section Vocabulary.
Context `{Collaborators}.

(** Only the height index differs between [s] and [s']. *)
Definition only_index (s s' : WalletBlockchain) : Prop :=
  s' = with_height_to_hash (_height_to_hash s') s.

(** Only the two indexes differ between [s] and [s']. *)
Definition only_indexes (s s' : WalletBlockchain) : Prop :=
  s' = with_block_records (_block_records s') (with_height_to_hash (_height_to_hash s') s).

(** The instance once [add_block_record] has run. *)
Definition record_added (block_record : BlockRecord.t) (s : WalletBlockchain) :=
  with_block_records
    (<[BlockRecord.header_hash block_record := block_record]> (_block_records s)) s.

(** The value of the local [fork_height] in [receive_block]. *)
Definition fork_height_of (s : WalletBlockchain) (block_record : BlockRecord.t)
    (peak : HeaderBlock.t) : Z :=
  if BlockRecord.prev_hash block_record =? HeaderBlock.header_hash peak
  then Z.of_N (HeaderBlock.height peak)
  else find_fork_point_in_chain (record_added block_record s) block_record peak.

(** The sub-slot iterations and the difficulty [receive_block] validates
    the block with; [None] when the parent is not in the index. *)
Definition validation_params (s : WalletBlockchain) (block : HeaderBlock.t)
  : option (uint64 * uint64) :=
  if HeaderBlock.height block =? 0 then
    Some (SUB_SLOT_ITERS_STARTING (constants s), DIFFICULTY_STARTING (constants s))
  else
    match try_block_record s (HeaderBlock.prev_header_hash block) with
    | None => None
    | Some prev_b =>
        Some (get_next_sub_slot_iters_and_difficulty (constants s)
                (0 <? N.of_nat (length (HeaderBlock.finished_sub_slots block)))
                prev_b s)
    end.

(** The ways [receive_block] can go: it stops at one of its three early
    returns with the instance untouched, whatever the fuel, or it builds
    the block record and continues with [adopt]. *)
Inductive receive_case (fuel : nat) (block : HeaderBlock.t) (s : WalletBlockchain)
  : outcome (ReceiveBlockResult * option Err) -> Prop :=
| case_already_have :
    contains_block s (HeaderBlock.header_hash block) = true ->
    receive_case fuel block s (Ret (ALREADY_HAVE_BLOCK, None) s)
| case_disconnected :
    contains_block s (HeaderBlock.header_hash block) = false ->
    HeaderBlock.height block <> 0 ->
    _block_records s !! HeaderBlock.prev_header_hash block = None ->
    (forall fuel', receive_block fuel' block s
                   = Ret (DISCONNECTED_BLOCK, Some INVALID_PREV_BLOCK_HASH) s) ->
    receive_case fuel block s (Ret (DISCONNECTED_BLOCK, Some INVALID_PREV_BLOCK_HASH) s)
| case_invalid e :
    contains_block s (HeaderBlock.header_hash block) = false ->
    (forall fuel', receive_block fuel' block s = Ret (INVALID_BLOCK, Some e) s) ->
    receive_case fuel block s (Ret (INVALID_BLOCK, Some e) s)
| case_adopt sub_slot_iters difficulty required_iters :
    contains_block s (HeaderBlock.header_hash block) = false ->
    validation_params s block = Some (sub_slot_iters, difficulty) ->
    validate_finished_header_block (constants s) s block difficulty sub_slot_iters
    = (Some required_iters, None) ->
    receive_case fuel block s
      (adopt fuel block (block_to_block_record (constants s) s required_iters block) s).

(** The instance once the proof has been stored and persisted. *)
Definition proof_stored (weight_proof : WeightProof.t) (s : WalletBlockchain) :=
  with_store
    (set_object (_basic_store s) "SYNCED_WEIGHT_PROOF" (StoredWeightProof weight_proof))
    (with_synced_weight_proof (Some weight_proof) s).

(** The guard of [new_weight_proof]: there is a peak and the proof's tail
    is not heavier. *)
Definition stale (weight_proof : WeightProof.t) (s : WalletBlockchain) : Prop :=
  exists peak tail,
    get_peak_block s = Some peak /\
    last (WeightProof.recent_chain_data weight_proof) = Some tail /\
    HeaderBlock.weight tail <= HeaderBlock.weight peak.

(** The guard is passed: there is no peak, or the tail is strictly heavier. *)
Definition guard_passed (weight_proof : WeightProof.t) (s : WalletBlockchain) : Prop :=
  get_peak_block s = None \/
  exists peak tail,
    get_peak_block s = Some peak /\
    last (WeightProof.recent_chain_data weight_proof) = Some tail /\
    HeaderBlock.weight peak < HeaderBlock.weight tail.

(** What [new_weight_proof] does once the guard is passed. *)
Definition ingest (weight_proof : WeightProof.t) (records : option (list BlockRecord.t))
  : M unit :=
  (self <- get_self ;;
   let latest_timestamp := _latest_timestamp self in
   records <-
     match records with
     | Some records => ret records
     | None =>
         let '(success, records) := validate_weight_proof weight_proof in
         if success then ret records else raise AssertionError
     end ;;
   latest_timestamp <- for_each records apply_record latest_timestamp ;;
   tail <- last_item (WeightProof.recent_chain_data weight_proof) ;;
   set_peak_block tail (Some latest_timestamp))%method.

(** The peak's weight does not decrease from [s] to [s'], and a peak is
    not lost. *)
Definition peak_weight_le (s s' : WalletBlockchain) : Prop :=
  match _peak s, _peak s' with
  | None, _ => True
  | Some p, Some p' => HeaderBlock.weight p <= HeaderBlock.weight p'
  | Some _, None => False
  end.

(** One call of [receive_block] that came to an end, by returning or by
    raising, took the instance from [s] to [s']. *)
Inductive received : relation WalletBlockchain :=
| received_block fuel block s s' :
    final_state (receive_block fuel block s) = Some s' -> received s s'.

(** One call of [receive_block] or of [new_weight_proof] that came to an
    end took the instance from [s] to [s']. *)
Inductive mutated : relation WalletBlockchain :=
| mutated_receive_block fuel block s s' :
    final_state (receive_block fuel block s) = Some s' -> mutated s s'
| mutated_new_weight_proof weight_proof records s s' :
    final_state (new_weight_proof weight_proof records s) = Some s' -> mutated s s'.

(** [_latest_timestamp] is only written by [set_peak_block], which also
    sets the peak: an instance without a peak still has the [uint64(0)]
    that [create] gave it. *)
Definition timestamp_initial (s : WalletBlockchain) : Prop :=
  _peak s = None -> _latest_timestamp s = 0.

End Vocabulary.

(** ** Vocabulary of the further properties *)

Section MoreVocabulary.
Context `{Collaborators}.

(** The block passes every check of [receive_block] with the required
    iterations [required_iters]: it is new, its parent is known (or it is at
    height 0) and the validator accepts it. *)
Definition accepted (s : WalletBlockchain) (block : HeaderBlock.t)
    (required_iters : uint64) : Prop :=
  contains_block s (HeaderBlock.header_hash block) = false /\
  exists sub_slot_iters difficulty,
    validation_params s block = Some (sub_slot_iters, difficulty) /\
    validate_finished_header_block (constants s) s block difficulty sub_slot_iters
    = (Some required_iters, None).

(** The height index once [_rollback_to_height(height)] has deleted the
    heights from [max(0, height)] to the peak's height. *)
Definition rolled_back (height : Z) (peak : HeaderBlock.t)
    (m : gmap N HeightEntry) : gmap N HeightEntry :=
  filter (fun kv => ~ (Z.max 0 height <= Z.of_N kv.1 <= Z.of_N (HeaderBlock.height peak))%Z) m.

(** The height index with the heights from [max(0, height)] up to, but not
    including, [stop] deleted. *)
Definition rolled_back_until (height stop : Z) (m : gmap N HeightEntry)
  : gmap N HeightEntry :=
  filter (fun kv => ~ (Z.max 0 height <= Z.of_N kv.1 < stop)%Z) m.

(** The two index writes of one round of the loop of [new_weight_proof]. *)
Definition index_record (s : WalletBlockchain) (record : BlockRecord.t) : WalletBlockchain :=
  with_block_records
    (<[BlockRecord.header_hash record := record]> (_block_records s))
    (with_height_to_hash
       (<[BlockRecord.height record := EntryHash (BlockRecord.header_hash record)]>
          (_height_to_hash s)) s).

Definition records_applied (records : list BlockRecord.t) (s : WalletBlockchain)
  : WalletBlockchain :=
  foldl index_record s records.

(** The update of the local [latest_timestamp] in one round of that loop. *)
Definition later_timestamp (latest_timestamp : uint64) (record : BlockRecord.t) : uint64 :=
  if BlockRecord.is_transaction_block record then
    match BlockRecord.timestamp record with
    | Some t => if latest_timestamp <? t then t else latest_timestamp
    | None => latest_timestamp
    end
  else latest_timestamp.

Definition latest_after (records : list BlockRecord.t) (latest_timestamp : uint64) : uint64 :=
  foldl later_timestamp latest_timestamp records.

(** A record that is flagged as a transaction block has a timestamp (the
    assertion in the loop of [new_weight_proof]). *)
Definition well_timed (record : BlockRecord.t) : Prop :=
  BlockRecord.is_transaction_block record = true -> is_Some (BlockRecord.timestamp record).

(** The records [new_weight_proof] applies: the ones it is given, or else
    the ones the verifier returns with a successful verdict. *)
Definition records_used (weight_proof : WeightProof.t)
    (records : option (list BlockRecord.t)) (used : list BlockRecord.t) : Prop :=
  records = Some used \/
  (records = None /\ validate_weight_proof weight_proof = (true, used)).

(** The last record of [records] at height [k], and the last one with
    header hash [h]. *)
Definition last_at_height (k : uint32) (records : list BlockRecord.t) : option BlockRecord.t :=
  last (List.filter (fun r => BlockRecord.height r =? k) records).

Definition last_with_hash (h : bytes32) (records : list BlockRecord.t) : option BlockRecord.t :=
  last (List.filter (fun r => BlockRecord.header_hash r =? h) records).

(** Along parent links inside the block-record index the height goes
    strictly down. *)
Definition heights_decrease (m : gmap N BlockRecord.t) : Prop :=
  forall h r parent,
    m !! h = Some r -> m !! BlockRecord.prev_hash r = Some parent ->
    BlockRecord.height parent < BlockRecord.height r.

(** The persisted peak is the peak in memory. *)
Definition peak_persisted (s : WalletBlockchain) : Prop :=
  forall p, _peak s = Some p -> get_header_block (_basic_store s) "PEAK_BLOCK" = Some p.

End MoreVocabulary.

(** ** A concrete set of collaborators

    Used to run the methods on concrete chains.  The validator accepts every
    header except the two kinds named below, the difficulty never changes,
    and the block record of a header copies the header's fields. *)

Module Scenario.

Definition cursor : Type := N * N * N.   (* height, header hash, parent hash *)

Definition cursor_of_record (r : BlockRecord.t) : cursor :=
  (BlockRecord.height r, BlockRecord.header_hash r, BlockRecord.prev_hash r).

Definition parent_cursor (records : gmap N BlockRecord.t) (c : cursor) : option cursor :=
  cursor_of_record <$> records !! c.2.

(** Modelled from the spec: [find_fork_point_in_chain] is not part of the
    file.  It "walks both chains backward via parent-hash links through the
    index until a common ancestor height is found"; [-1] stands for "no
    common ancestor" and for an ancestry that cannot be resolved. *)
Fixpoint fork_walk (fuel : nat) (records : gmap N BlockRecord.t) (c1 c2 : cursor) : Z :=
  match fuel with
  | O => (-1)%Z
  | S fuel' =>
      if (c1.1.2 =? c2.1.2) && (c1.1.1 =? c2.1.1) then Z.of_N c1.1.1
      else if (c1.1.1 =? 0) && (c2.1.1 =? 0) then (-1)%Z
      else if c1.1.1 <? c2.1.1 then
        match parent_cursor records c2 with
        | Some c2' => fork_walk fuel' records c1 c2'
        | None => (-1)%Z
        end
      else if c2.1.1 <? c1.1.1 then
        match parent_cursor records c1 with
        | Some c1' => fork_walk fuel' records c1' c2
        | None => (-1)%Z
        end
      else
        match parent_cursor records c1, parent_cursor records c2 with
        | Some c1', Some c2' => fork_walk fuel' records c1' c2'
        | _, _ => (-1)%Z
        end
  end.

Definition record_of_header (b : HeaderBlock.t) : BlockRecord.t :=
  BlockRecord.mk (HeaderBlock.header_hash b) (HeaderBlock.prev_header_hash b)
    (HeaderBlock.height b) (HeaderBlock.weight b)
    (FoliageTransactionBlock.timestamp <$> HeaderBlock.foliage_transaction_block b)
    (bool_decide (is_Some (HeaderBlock.foliage_transaction_block b))).

#[export] Instance collaborators : Collaborators := {|
  validate_weight_proof wp :=
    (negb (bool_decide (WeightProof.sub_epochs wp = [])),
     record_of_header <$> WeightProof.recent_chain_data wp);
  (* a header whose hash is 0 is rejected with error 7; a header that
     carries the sub-slot marker 0 has no required iterations *)
  validate_finished_header_block _ _ b _ _ :=
    if HeaderBlock.header_hash b =? 0 then (None, Some (mkValidationError (OTHER_ERR 7)))
    else if bool_decide (0 ∈ HeaderBlock.finished_sub_slots b) then (None, None)
    else (Some 1, None);
  get_next_sub_slot_iters_and_difficulty c _ _ _ :=
    (SUB_SLOT_ITERS_STARTING c, DIFFICULTY_STARTING c);
  find_fork_point_in_chain s r p :=
    fork_walk (N.to_nat (BlockRecord.height r + HeaderBlock.height p) + 1)
      (_block_records s) (cursor_of_record r)
      (HeaderBlock.height p, HeaderBlock.header_hash p, HeaderBlock.prev_header_hash p);
  block_to_block_record _ _ _ b := record_of_header b
|}.

Definition the_constants : ConsensusConstants := mkConstants 1024 7.

(** Block [hash] at [height], child of [prev], of cumulative [weight];
    a transaction block when [ts] is a timestamp. *)
Definition header (hash prev height weight : N) (ts : option N) : HeaderBlock.t :=
  HeaderBlock.mk hash prev height weight (FoliageTransactionBlock.mk <$> ts) [].

(** A freshly created instance over an empty store. *)
Definition fresh : WalletBlockchain :=
  mkWalletBlockchain the_constants ∅ None None ∅ ∅ 0.

(** Chain A: heights 0..10, hashes 100..110, weights 0, 10, .., 100. *)
Definition chain_a (h : N) : HeaderBlock.t :=
  header (100 + h) (100 + h - 1) h (10 * h) (Some (1000 + h)).

(** Chain B leaves chain A after height 4: heights 5..12, hashes 205..212,
    weights 57, 64, .., 99, 106. *)
Definition chain_b (h : N) : HeaderBlock.t :=
  header (200 + h) (if h =? 5 then 104 else 200 + h - 1) h (50 + 7 * (h - 4))
    (Some (2000 + h)).

Definition heights (lo hi : N) : list N :=
  N.of_nat <$> seq (N.to_nat lo) (N.to_nat (hi + 1 - lo)).

(** Feed the blocks in order, and collect the result codes. *)
Fixpoint receive_all (fuel : nat) (blocks : list HeaderBlock.t) (s : WalletBlockchain)
  : list (ReceiveBlockResult * option Err) * option WalletBlockchain :=
  match blocks with
  | [] => ([], Some s)
  | b :: blocks' =>
      match receive_block fuel b s with
      | Ret r s' =>
          let '(rs, final) := receive_all fuel blocks' s' in (r :: rs, final)
      | _ => ([], None)
      end
  end.

(** The instance an outcome ends in ([fresh] when there is none). *)
Definition after {A} (o : outcome A) : WalletBlockchain :=
  default fresh (final_state o).

(** The instance after the genesis block of chain A, and after its child. *)
Definition at_genesis : WalletBlockchain := after (receive_block 8 (chain_a 0) fresh).
Definition at_child : WalletBlockchain := after (receive_block 8 (chain_a 1) at_genesis).

(** A block whose parent is unknown, a block the validator rejects, and a
    block without required iterations. *)
Definition stray : HeaderBlock.t := header 7 6 1 10 None.
Definition rejected : HeaderBlock.t := header 0 100 1 10 None.
Definition spaceless : HeaderBlock.t := HeaderBlock.mk 9 100 1 10 None [0].

(** Chain A as a weight proof: its tail and the records of heights 0..10. *)
Definition proof_a : WeightProof.t := WeightProof.mk [1] [chain_a 9; chain_a 10].
Definition records_a : list BlockRecord.t := record_of_header <$> (chain_a <$> heights 0 10).
Definition at_a : WalletBlockchain := after (new_weight_proof proof_a (Some records_a) fresh).

(** A proof the verifier rejects. *)
Definition proof_bad : WeightProof.t := WeightProof.mk [] [chain_a 9; chain_a 10].

(** A second block at height 1 that weighs as much as chain A's. *)
Definition rival : HeaderBlock.t := header 151 100 1 10 (Some 1500).

(** The instance after all of [blocks] ([fresh] if a call did not return). *)
Definition after_all (fuel : nat) (blocks : list HeaderBlock.t) (s : WalletBlockchain)
  : WalletBlockchain :=
  default fresh (receive_all fuel blocks s).2.

(** Chain A adopted through its weight proof, then chain B's blocks of
    heights 5..11 (orphans), then chain B's block of height 12. *)
Definition at_b11 : WalletBlockchain := after_all 16 (chain_b <$> heights 5 11) at_a.
Definition at_b : WalletBlockchain := after (receive_block 16 (chain_b 12) at_b11).

(** The same with chain A received block by block. *)
Definition at_a_by_blocks : WalletBlockchain :=
  after_all 16 (chain_a <$> heights 0 10) fresh.
Definition at_b11_by_blocks : WalletBlockchain :=
  after_all 16 (chain_b <$> heights 5 11) at_a_by_blocks.

(** Chain A goes on at height 11 after chain B has taken over. *)
Definition at_failed : WalletBlockchain := after (receive_block 16 (chain_a 11) at_b).

(** A record that is its own parent, and an instance that knows it. *)
Definition looped : BlockRecord.t := BlockRecord.mk 500 500 7 0 None false.
Definition at_loop : WalletBlockchain := record_added looped fresh.

(** A heavier proof for a short chain: its tail is at height 3. *)
Definition short_tail : HeaderBlock.t := header 300 299 3 500 (Some 3000).
Definition proof_short : WeightProof.t := WeightProof.mk [1] [short_tail].
Definition at_short : WalletBlockchain :=
  after (new_weight_proof proof_short (Some [record_of_header short_tail]) at_a).


(** A store that holds chain A's proof and no peak. *)
Definition store_with_proof : KeyValStore := _basic_store (proof_stored proof_a fresh).

End Scenario.

(** ** Basic facts about the monad and the loops *)

Lemma only_index_refl s : only_index s s.
Proof. by destruct s. Qed.

Lemma only_index_trans s1 s2 s3 :
  only_index s1 s2 -> only_index s2 s3 -> only_index s1 s3.
Proof.
  unfold only_index. intros H12 H23. rewrite H23 at 1. rewrite H12 at 1.
  by destruct s1.
Qed.

Lemma only_index_with m s : only_index s (with_height_to_hash m s).
Proof. by destruct s. Qed.

Ltac unfold_monad :=
  unfold bind, ret, raise, modify, get_self in *; simpl in *.

Section Loops.
Context `{Collaborators}.

Lemma contains_block_true s h :
  contains_block s h = true <-> is_Some (_block_records s !! h).
Proof. unfold contains_block. by rewrite bool_decide_eq_true. Qed.

Lemma contains_block_false s h :
  contains_block s h = false <-> _block_records s !! h = None.
Proof.
  unfold contains_block. rewrite bool_decide_eq_false.
  by rewrite eq_None_not_Some.
Qed.

Lemma receive_block_have fuel block s :
  contains_block s (HeaderBlock.header_hash block) = true ->
  receive_block fuel block s = Ret (ALREADY_HAVE_BLOCK, None) s.
Proof. intros Hc. unfold receive_block. unfold_monad. by rewrite Hc. Qed.

Lemma try_block_record_lookup s h : try_block_record s h = _block_records s !! h.
Proof.
  unfold try_block_record. destruct (contains_block s h) eqn:E; [done|].
  by apply contains_block_false in E.
Qed.

(** The deletions of [_rollback_to_height]: they either all succeed, and
    then exactly the listed heights are gone, or a [KeyError] leaves the
    loop; nothing but the height index is touched. *)
Lemma del_loop_spec (hs : list Z) s :
  match for_each hs (fun h _ => del_height h) tt s with
  | Ret _ s' =>
      only_index s s' /\
      (forall k, k ∈ Z.to_N <$> hs -> _height_to_hash s' !! k = None) /\
      (forall k, k ∉ Z.to_N <$> hs ->
                 _height_to_hash s' !! k = _height_to_hash s !! k)
  | Raise e s' => e = KeyError /\ only_index s s'
  | OutOfFuel => False
  end.
Proof.
  revert s. induction hs as [|h hs IH]; intros s; simpl.
  - unfold ret. split; [apply only_index_refl|]. split; [|done].
    intros k Hk. by apply elem_of_nil in Hk.
  - unfold bind, del_height.
    destruct (_height_to_hash s !! Z.to_N h) as [e|] eqn:E.
    + set (s1 := with_height_to_hash _ s).
      specialize (IH s1).
      destruct (for_each hs _ tt s1) as [[] s'|e' s'|]; [| |done].
      * destruct IH as (Hf & Hgone & Hkeep).
        split; [eapply only_index_trans; [apply only_index_with|exact Hf]|].
        split.
        -- intros k Hk. apply elem_of_cons in Hk as [->|Hk]; [|by apply Hgone].
           destruct (decide (Z.to_N h ∈ Z.to_N <$> hs)) as [Hin|Hnin];
             [by apply Hgone|].
           rewrite Hkeep by done. subst s1; simpl. by rewrite lookup_delete_eq.
        -- intros k Hk. apply not_elem_of_cons in Hk as [Hne Hk].
           rewrite Hkeep by done. subst s1; simpl. by rewrite lookup_delete_ne.
      * destruct IH as (-> & Hf). split; [done|].
        eapply only_index_trans; [apply only_index_with|exact Hf].
    + split; [done|apply only_index_refl].
Qed.

Lemma elem_of_range h lo hi : h ∈ range lo hi <-> (lo <= h < hi)%Z.
Proof. unfold range. rewrite elem_of_seqZ. lia. Qed.

(** [_rollback_to_height]: when it returns, the persisted peak has been
    removed and the heights from [max(0, height)] to the peak's height are
    gone from the index, the fork height itself included. *)
Lemma rollback_spec (height : Z) s p :
  _peak s = Some p ->
  match _rollback_to_height height s with
  | Ret _ s' =>
      s' = with_store (remove_object (_basic_store s) "PEAK_BLOCK")
             (with_height_to_hash (_height_to_hash s') s) /\
      (forall k, (Z.max 0 height <= Z.of_N k <= Z.of_N (HeaderBlock.height p))%Z ->
                 _height_to_hash s' !! k = None) /\
      (forall k, (Z.of_N k < Z.max 0 height \/ Z.of_N (HeaderBlock.height p) < Z.of_N k)%Z ->
                 _height_to_hash s' !! k = _height_to_hash s !! k)
  | Raise e s' => e = KeyError /\ only_index s s'
  | OutOfFuel => False
  end.
Proof.
  intros Hp. unfold _rollback_to_height, bind at 1, get_self. rewrite Hp.
  unfold bind at 1.
  pose proof (del_loop_spec
    (range (Z.max 0 height) (Z.of_N (HeaderBlock.height p) + 1)) s) as Hl.
  destruct (for_each _ _ tt s) as [[] s1|e s1|]; [|done..].
  destruct Hl as (Hf & Hgone & Hkeep). unfold modify. split; [|split].
  - unfold only_index in Hf. destruct s, s1. simpl in *. by inversion Hf.
  - intros k Hk. simpl. apply Hgone. apply list_elem_of_fmap.
    exists (Z.of_N k). split; [by rewrite N2Z.id|]. apply elem_of_range. lia.
  - intros k Hk. simpl. apply Hkeep.
    intros (h & -> & Hh%elem_of_range)%list_elem_of_fmap. lia.
Qed.

Lemma rollback_no_peak (height : Z) s :
  _peak s = None -> _rollback_to_height height s = Ret tt s.
Proof. intros Hp. unfold _rollback_to_height, bind, get_self. by rewrite Hp. Qed.

(** The walk that re-populates the height index: it touches nothing but
    the index, writes only heights above the fork height, writes block
    records (not hashes), and never lowers the running timestamp. *)
Lemma repopulate_spec fuel (fork_height : Z) curr latest s :
  match repopulate fuel fork_height curr latest s with
  | Ret latest' s' =>
      only_index s s' /\ latest <= latest' /\
      (forall k, _height_to_hash s' !! k = _height_to_hash s !! k \/
                 ((fork_height < Z.of_N k)%Z /\
                  exists r, _height_to_hash s' !! k = Some (EntryRecord r))) /\
      ((fork_height < Z.of_N (BlockRecord.height curr))%Z ->
       exists r, _height_to_hash s' !! BlockRecord.height curr = Some (EntryRecord r))
  | Raise e s' => e = KeyError /\ only_index s s'
  | OutOfFuel => True
  end.
Proof.
  revert curr latest s. induction fuel as [|fuel IH]; intros curr latest s; simpl.
  - destruct (Z.gtb_spec (Z.of_N (BlockRecord.height curr)) fork_height); [done|].
    unfold ret. repeat split; [apply only_index_refl|lia|by left|lia].
  - destruct (Z.gtb_spec (Z.of_N (BlockRecord.height curr)) fork_height) as [Hgt|Hle].
    2:{ unfold ret. repeat split; [apply only_index_refl|lia|by left|lia]. }
    unfold bind at 1, modify.
    set (s1 := with_height_to_hash _ s).
    set (latest1 := match BlockRecord.timestamp curr with
                    | Some t => if latest <? t then t else latest
                    | None => latest end).
    assert (Hl1 : latest <= latest1).
    { subst latest1. destruct (BlockRecord.timestamp curr) as [t|]; [|lia].
      destruct (N.ltb_spec latest t); lia. }
    assert (Hs1 : only_index s s1) by apply only_index_with.
    assert (Hmid : forall k, _height_to_hash s1 !! k = _height_to_hash s !! k \/
              ((fork_height < Z.of_N k)%Z /\
               exists r, _height_to_hash s1 !! k = Some (EntryRecord r))).
    { intros k. subst s1; simpl.
      destruct (decide (BlockRecord.height curr = k)) as [<-|Hne].
      - right. split; [lia|]. rewrite lookup_insert_eq. eauto.
      - left. by rewrite lookup_insert_ne. }
    assert (Hcur : _height_to_hash s1 !! BlockRecord.height curr
                   = Some (EntryRecord curr)).
    { subst s1; simpl. by rewrite lookup_insert_eq. }
    destruct (BlockRecord.height curr =? 0) eqn:Ez.
    + unfold ret. repeat split; eauto.
    + unfold bind, block_record.
      destruct (_block_records s1 !! BlockRecord.prev_hash curr) as [parent|] eqn:Ep.
      2:{ split; [done|exact Hs1]. }
      specialize (IH parent latest1 s1).
      destruct (repopulate fuel fork_height parent latest1 s1) as [l' s'|e s'|];
        [| |done].
      * destruct IH as (Hf & Hl & Hk & _).
        split; [eapply only_index_trans; eauto|]. split; [lia|]. split.
        -- intros k. destruct (Hk k) as [Heq|Hw]; [|by right].
           rewrite Heq. apply Hmid.
        -- intros _. destruct (Hk (BlockRecord.height curr)) as [Heq|[_ Hw]]; [|done].
           exists curr. exact (eq_trans Heq Hcur).
      * destruct IH as (-> & Hf). split; [done|]. eapply only_index_trans; eauto.
Qed.

(** More fuel does not change a result that was reached. *)
Lemma repopulate_fuel_mono fuel fuel' (fork_height : Z) curr latest s :
  (fuel <= fuel')%nat ->
  repopulate fuel fork_height curr latest s <> OutOfFuel ->
  repopulate fuel' fork_height curr latest s = repopulate fuel fork_height curr latest s.
Proof.
  revert fuel' curr latest s.
  induction fuel as [|fuel IH]; intros fuel' curr latest s Hle Hne.
  - simpl in *.
    destruct (Z.gtb_spec (Z.of_N (BlockRecord.height curr)) fork_height) as [Hgt|Hngt];
      [done|].
    destruct fuel'; simpl;
      by destruct (Z.gtb_spec (Z.of_N (BlockRecord.height curr)) fork_height); try lia.
  - destruct fuel' as [|fuel']; [lia|]. simpl in *.
    destruct (Z.of_N (BlockRecord.height curr) >? fork_height)%Z; [|done].
    unfold bind, modify in *.
    destruct (BlockRecord.height curr =? 0); [done|].
    destruct (block_record _ _) as [parent s1|e s1|]; [|done..].
    apply IH; [lia|done].
Qed.

End Loops.

(** ** The paths through [receive_block] *)

Section ReceiveBlock.
Context `{Collaborators}.

Lemma receive_block_unfold fuel block s :
  receive_block fuel block s =
  if contains_block s (HeaderBlock.header_hash block) then Ret (ALREADY_HAVE_BLOCK, None) s
  else
    match validation_params s block with
    | None => Ret (DISCONNECTED_BLOCK, Some INVALID_PREV_BLOCK_HASH) s
    | Some (sub_slot_iters, difficulty) =>
        match validate_finished_header_block (constants s) s block
                difficulty sub_slot_iters with
        | (_, Some error) => Ret (INVALID_BLOCK, Some (code error)) s
        | (None, None) => Ret (INVALID_BLOCK, Some INVALID_POSPACE) s
        | (Some required_iters, None) =>
            adopt fuel block
              (block_to_block_record (constants s) s required_iters block) s
        end
    end.
Proof.
  unfold receive_block, validation_params. unfold_monad.
  destruct (contains_block s _); [done|].
  destruct (if HeaderBlock.height block =? 0 then _ else _) as [[ssi d]|]; [|done].
  by destruct (validate_finished_header_block _ s block d ssi) as [[ri|] [err|]].
Qed.

Lemma receive_block_cases fuel block s :
  receive_case fuel block s (receive_block fuel block s).
Proof.
  rewrite receive_block_unfold.
  destruct (contains_block s (HeaderBlock.header_hash block)) eqn:Ehave.
  { by apply case_already_have. }
  destruct (validation_params s block) as [[ssi d]|] eqn:Ep.
  - destruct (validate_finished_header_block _ s block d ssi) as [[ri|] [err|]] eqn:Ev.
    + apply case_invalid; [done|]. intros fuel'.
      by rewrite receive_block_unfold, Ehave, Ep, Ev.
    + by eapply case_adopt.
    + apply case_invalid; [done|]. intros fuel'.
      by rewrite receive_block_unfold, Ehave, Ep, Ev.
    + apply case_invalid; [done|]. intros fuel'.
      by rewrite receive_block_unfold, Ehave, Ep, Ev.
  - assert (Hh : HeaderBlock.height block <> 0 /\
                 _block_records s !! HeaderBlock.prev_header_hash block = None).
    { revert Ep. unfold validation_params.
      destruct (N.eqb_spec (HeaderBlock.height block) 0); [done|].
      rewrite try_block_record_lookup.
      by destruct (_block_records s !! HeaderBlock.prev_header_hash block). }
    destruct Hh. apply case_disconnected; [done..|]. intros fuel'.
    by rewrite receive_block_unfold, Ehave, Ep.
Qed.

(** No peak yet: the block becomes the peak outright. *)
Lemma adopt_no_peak fuel block br s :
  _peak s = None ->
  adopt fuel block br s =
  Ret (NEW_PEAK, None)
    (mkWalletBlockchain (constants s)
       (set_object (_basic_store s) "PEAK_BLOCK" (StoredHeaderBlock block))
       (synced_weight_proof s) (Some block)
       (<[BlockRecord.height br := EntryHash (BlockRecord.header_hash br)]>
          (_height_to_hash s))
       (<[BlockRecord.header_hash br := br]> (_block_records s))
       (match (if BlockRecord.is_transaction_block br
               then BlockRecord.timestamp br else None) with
        | Some t => t
        | None =>
            match HeaderBlock.foliage_transaction_block block with
            | Some ftb => FoliageTransactionBlock.timestamp ftb
            | None => _latest_timestamp s
            end
        end)).
Proof.
  intros Hp. unfold adopt, add_block_record, set_peak_block. unfold_monad.
  rewrite Hp.
  destruct (if BlockRecord.is_transaction_block br then _ else _) as [t|]; simpl;
    [done|].
  by destruct (HeaderBlock.foliage_transaction_block block).
Qed.

(** A peak of at least the block's weight: the block is kept as an orphan. *)
Lemma adopt_not_heavier fuel block br s p :
  _peak s = Some p ->
  BlockRecord.weight br <= HeaderBlock.weight p ->
  adopt fuel block br s = Ret (ADDED_AS_ORPHAN, None) (record_added br s).
Proof.
  intros Hp Hw. unfold adopt, add_block_record. unfold_monad. rewrite Hp.
  destruct (N.ltb_spec (HeaderBlock.weight p) (BlockRecord.weight br)); [lia|done].
Qed.

(** A lighter peak: roll back to the fork height, walk back from the block
    and make it the peak. *)
Lemma adopt_heavier fuel block br s p :
  _peak s = Some p ->
  HeaderBlock.weight p < BlockRecord.weight br ->
  let f := fork_height_of s br p in
  match adopt fuel block br s with
  | Ret r s' =>
      r = (NEW_PEAK, None) /\
      s' = mkWalletBlockchain (constants s)
             (set_object (_basic_store s) "PEAK_BLOCK" (StoredHeaderBlock block))
             (synced_weight_proof s) (Some block) (_height_to_hash s')
             (<[BlockRecord.header_hash br := br]> (_block_records s))
             (_latest_timestamp s') /\
      _latest_timestamp s <= _latest_timestamp s' /\
      (forall k, (Z.max 0 f <= Z.of_N k <= Z.of_N (HeaderBlock.height p))%Z ->
                 (Z.of_N k <= f)%Z -> _height_to_hash s' !! k = None) /\
      (forall k, (Z.of_N k < Z.max 0 f)%Z ->
                 _height_to_hash s' !! k = _height_to_hash s !! k) /\
      (forall k, _height_to_hash s' !! k = _height_to_hash s !! k \/
                 _height_to_hash s' !! k = None \/
                 exists r, _height_to_hash s' !! k = Some (EntryRecord r)) /\
      ((f < Z.of_N (BlockRecord.height br))%Z ->
       exists r, _height_to_hash s' !! BlockRecord.height br = Some (EntryRecord r))
  | Raise e s' =>
      e = KeyError /\
      (s' = with_height_to_hash (_height_to_hash s') (record_added br s) \/
       s' = with_store (remove_object (_basic_store s) "PEAK_BLOCK")
              (with_height_to_hash (_height_to_hash s') (record_added br s)))
  | OutOfFuel => True
  end.
Proof.
  intros Hp Hw f. unfold adopt, add_block_record.
  unfold bind at 1, modify. fold (record_added br s).
  unfold bind at 1, get_self. simpl. rewrite Hp.
  destruct (N.ltb_spec (HeaderBlock.weight p) (BlockRecord.weight br)); [|lia].
  fold (fork_height_of s br p). fold f.
  set (s0 := record_added br s).
  unfold bind at 1.
  pose proof (rollback_spec f s0 p Hp) as Hroll.
  destruct (_rollback_to_height f s0) as [[] s1|e s1|]; [| |done].
  2:{ destruct Hroll as [-> Hf]. split; [done|]. by left. }
  destruct Hroll as (Hs1 & Hgone & Hkeep).
  unfold bind at 1, get_self. unfold bind at 1.
  pose proof (repopulate_spec fuel f br (_latest_timestamp s1) s1) as Hrep.
  destruct (repopulate fuel f br (_latest_timestamp s1) s1) as [t s2|e s2|]; [| |done].
  2:{ destruct Hrep as [-> Hf]. split; [done|]. right.
      unfold only_index in Hf. rewrite Hf, Hs1. by destruct s. }
  destruct Hrep as (Hf & Ht & Hk & Hcur).
  unfold set_peak_block. unfold_monad.
  assert (Hts : _latest_timestamp s1 = _latest_timestamp s)
    by (rewrite Hs1; by destruct s).
  split; [done|]. split; [|split; [lia|]].
  - unfold only_index in Hf. rewrite Hf, Hs1. destruct s; simpl.
    unfold set_object, remove_object. by rewrite insert_delete_eq.
  - split; [|split; [|split]].
    + intros k Hk1 Hk2. destruct (Hk k) as [->|[Hlt _]]; [|lia]. by apply Hgone.
    + intros k Hk1. destruct (Hk k) as [->|[Hlt _]]; [|lia].
      rewrite Hkeep by lia. by destruct s.
    + intros k. destruct (Hk k) as [Heq|[_ Hr]]; [|by right; right].
      rewrite Heq.
      destruct (decide (Z.max 0 f <= Z.of_N k <= Z.of_N (HeaderBlock.height p))%Z).
      * right; left. by apply Hgone.
      * left. rewrite Hkeep by lia. by destruct s.
    + exact Hcur.
Qed.

(** More fuel does not change a result that [receive_block] reached. *)
Lemma adopt_fuel_mono fuel fuel' block br s :
  (fuel <= fuel')%nat ->
  adopt fuel block br s <> OutOfFuel ->
  adopt fuel' block br s = adopt fuel block br s.
Proof.
  intros Hle. unfold adopt, add_block_record. unfold_monad.
  destruct (_peak s) as [p|]; [|done].
  destruct (HeaderBlock.weight p <? BlockRecord.weight br); [|done].
  destruct (_rollback_to_height _ _) as [[] s1|e s1|]; [|done..].
  intros Hne. rewrite (repopulate_fuel_mono fuel fuel'); [done|done|].
  intros Hout. by rewrite Hout in Hne.
Qed.

Lemma receive_block_fuel_mono fuel fuel' block s :
  (fuel <= fuel')%nat ->
  receive_block fuel block s <> OutOfFuel ->
  receive_block fuel' block s = receive_block fuel block s.
Proof.
  intros Hle. rewrite !receive_block_unfold.
  destruct (contains_block s _); [done|].
  destruct (validation_params s block) as [[ssi d]|]; [|done].
  destruct (validate_finished_header_block _ s block d ssi) as [[ri|] [err|]]; try done.
  by apply adopt_fuel_mono.
Qed.

End ReceiveBlock.

(** ** The paths through [new_weight_proof] *)

Section NewWeightProof.
Context `{Collaborators}.

Lemma only_indexes_refl s : only_indexes s s.
Proof. by destruct s. Qed.

Lemma only_indexes_trans s1 s2 s3 :
  only_indexes s1 s2 -> only_indexes s2 s3 -> only_indexes s1 s3.
Proof.
  unfold only_indexes. intros H12 H23. rewrite H23 at 1. rewrite H12 at 1.
  by destruct s1.
Qed.

Lemma apply_record_spec (r : BlockRecord.t) latest s :
  match apply_record r latest s with
  | Ret latest' s' => latest <= latest' /\ only_indexes s s'
  | Raise e s' => e = AssertionError /\ only_indexes s s'
  | OutOfFuel => False
  end.
Proof.
  unfold apply_record, add_block_record. unfold_monad.
  set (s1 := with_block_records _ _).
  assert (Hs1 : only_indexes s s1) by (subst s1; by destruct s).
  destruct (BlockRecord.is_transaction_block r); [|split; [lia|done]].
  destruct (BlockRecord.timestamp r) as [t|]; [|by split].
  destruct (N.ltb_spec latest t); split; (lia || done).
Qed.

(** The loop over the records fills the two indexes and nothing else, and
    its running timestamp starts from, and never falls below, the value it
    is given. *)
Lemma apply_records_spec (records : list BlockRecord.t) latest s :
  match for_each records apply_record latest s with
  | Ret latest' s' => latest <= latest' /\ only_indexes s s'
  | Raise e s' => e = AssertionError /\ only_indexes s s'
  | OutOfFuel => False
  end.
Proof.
  revert latest s. induction records as [|r records IH]; intros latest s; simpl.
  { unfold ret. split; [lia|apply only_indexes_refl]. }
  unfold bind at 1. pose proof (apply_record_spec r latest s) as Hr.
  destruct (apply_record r latest s) as [t s1|e s1|]; [|done..].
  destruct Hr as [Ht Hs1]. specialize (IH t s1).
  destruct (for_each records apply_record t s1) as [t' s2|e s2|]; [| |done].
  - destruct IH as [Hl Hf]. split; [lia|]. eapply only_indexes_trans; eauto.
  - destruct IH as [-> Hf]. split; [done|]. eapply only_indexes_trans; eauto.
Qed.

Lemma new_weight_proof_stale weight_proof records s :
  stale weight_proof s -> new_weight_proof weight_proof records s = Ret tt s.
Proof.
  unfold stale. intros (peak & tail & Hp & Ht & Hw).
  unfold new_weight_proof, last_item. unfold_monad. rewrite Hp, Ht. simpl.
  by destruct (N.leb_spec (HeaderBlock.weight tail) (HeaderBlock.weight peak)); [|lia].
Qed.

Lemma new_weight_proof_fresh weight_proof records s :
  guard_passed weight_proof s ->
  new_weight_proof weight_proof records s =
  ingest weight_proof records (proof_stored weight_proof s).
Proof.
  unfold guard_passed. intros Hg. unfold new_weight_proof, ingest.
  unfold bind at 1, get_self. unfold bind at 1.
  assert (Hst : match get_peak_block s with
                | Some peak =>
                    (tail <- last_item (WeightProof.recent_chain_data weight_proof) ;;
                     ret (HeaderBlock.weight tail <=? HeaderBlock.weight peak))%method
                | None => ret false
                end s = Ret false s).
  { destruct Hg as [->|(peak & tail & -> & Ht & Hw)]; [done|].
    unfold last_item. rewrite Ht. unfold_monad.
    by destruct (N.leb_spec (HeaderBlock.weight tail) (HeaderBlock.weight peak));
      [lia|]. }
  rewrite Hst. by unfold_monad.
Qed.

(** Besides the two cases above there is only the empty proof offered to
    an instance that has a peak. *)
Lemma new_weight_proof_guard weight_proof s :
  stale weight_proof s \/ guard_passed weight_proof s \/
  (is_Some (get_peak_block s) /\ WeightProof.recent_chain_data weight_proof = []).
Proof.
  unfold stale, guard_passed.
  destruct (get_peak_block s) as [peak|]; [|by right; left; left].
  destruct (last (WeightProof.recent_chain_data weight_proof)) as [tail|] eqn:Et.
  - destruct (N.le_gt_cases (HeaderBlock.weight tail) (HeaderBlock.weight peak)).
    + left. eauto 10.
    + right; left; right. eauto 10.
  - right; right. split; [eauto|]. by apply last_None.
Qed.

Lemma new_weight_proof_empty weight_proof records s :
  is_Some (get_peak_block s) -> WeightProof.recent_chain_data weight_proof = [] ->
  new_weight_proof weight_proof records s = Raise IndexError s.
Proof.
  intros [peak Hp] He. unfold new_weight_proof, last_item. unfold_monad.
  by rewrite Hp, He.
Qed.

(** Every way [ingest] can end. *)
Lemma ingest_spec weight_proof records s :
  match ingest weight_proof records s with
  | Ret _ s' =>
      exists tail,
        last (WeightProof.recent_chain_data weight_proof) = Some tail /\
        s' = mkWalletBlockchain (constants s)
               (set_object (_basic_store s) "PEAK_BLOCK" (StoredHeaderBlock tail))
               (synced_weight_proof s) (Some tail) (_height_to_hash s')
               (_block_records s') (_latest_timestamp s') /\
        _latest_timestamp s <= _latest_timestamp s'
  | Raise e s' => only_indexes s s'
  | OutOfFuel => False
  end.
Proof.
  unfold ingest. unfold bind at 1, get_self. unfold bind at 1.
  assert (Hrest : forall recs,
    match
      (latest_timestamp <- for_each recs apply_record (_latest_timestamp s) ;;
       tail <- last_item (WeightProof.recent_chain_data weight_proof) ;;
       set_peak_block tail (Some latest_timestamp))%method s
    with
    | Ret _ s' =>
        exists tail,
          last (WeightProof.recent_chain_data weight_proof) = Some tail /\
          s' = mkWalletBlockchain (constants s)
                 (set_object (_basic_store s) "PEAK_BLOCK" (StoredHeaderBlock tail))
                 (synced_weight_proof s) (Some tail) (_height_to_hash s')
                 (_block_records s') (_latest_timestamp s') /\
          _latest_timestamp s <= _latest_timestamp s'
    | Raise e s' => only_indexes s s'
    | OutOfFuel => False
    end).
  { intros recs. unfold bind at 1.
    pose proof (apply_records_spec recs (_latest_timestamp s) s) as Hl.
    destruct (for_each recs apply_record (_latest_timestamp s) s) as [t s1|e s1|];
      [| |done].
    2:{ by destruct Hl. }
    destruct Hl as [Ht Hf]. unfold last_item, bind at 1.
    destruct (last (WeightProof.recent_chain_data weight_proof)) as [tail|];
      [|exact Hf].
    unfold set_peak_block. unfold_monad. exists tail. split; [done|].
    split; [|done]. unfold only_indexes in Hf. rewrite Hf. by destruct s. }
  destruct records as [recs|]; [apply Hrest|].
  destruct (validate_weight_proof weight_proof) as [[] recs]; [apply Hrest|].
  apply only_indexes_refl.
Qed.

End NewWeightProof.

(** ** Consequences for one call *)

Section OneCall.
Context `{Collaborators}.

Lemma adopt_ret fuel block br s r s' :
  adopt fuel block br s = Ret r s' ->
  _block_records s' = <[BlockRecord.header_hash br := br]> (_block_records s) /\
  ((r = (NEW_PEAK, None) /\ _peak s' = Some block /\
    (_peak s = None \/
     exists p, _peak s = Some p /\ HeaderBlock.weight p < BlockRecord.weight br)) \/
   (r = (ADDED_AS_ORPHAN, None) /\ s' = record_added br s /\
    exists p, _peak s = Some p /\ BlockRecord.weight br <= HeaderBlock.weight p)).
Proof.
  intros Hrun. destruct (_peak s) as [p|] eqn:Hp.
  - destruct (N.le_gt_cases (BlockRecord.weight br) (HeaderBlock.weight p)) as [Hle|Hgt].
    + rewrite (adopt_not_heavier _ _ _ _ p Hp Hle) in Hrun. inversion Hrun; subst.
      split; [done|]. right. eauto.
    + pose proof (adopt_heavier fuel block br s p Hp Hgt) as Hh. simpl in Hh.
      rewrite Hrun in Hh. destruct Hh as (-> & Hs' & _).
      split; [by rewrite Hs'|]. left. split; [done|]. split; [by rewrite Hs'|].
      right. eauto.
  - rewrite (adopt_no_peak _ _ _ _ Hp) in Hrun. inversion Hrun; subst.
    split; [done|]. left. eauto.
Qed.

Lemma adopt_raise fuel block br s e s' :
  adopt fuel block br s = Raise e s' ->
  e = KeyError /\ _peak s' = _peak s /\ _latest_timestamp s' = _latest_timestamp s /\
  exists p, _peak s = Some p /\ HeaderBlock.weight p < BlockRecord.weight br.
Proof.
  intros Hrun. destruct (_peak s) as [p|] eqn:Hp.
  - destruct (N.le_gt_cases (BlockRecord.weight br) (HeaderBlock.weight p)) as [Hle|Hgt].
    + by rewrite (adopt_not_heavier _ _ _ _ p Hp Hle) in Hrun.
    + pose proof (adopt_heavier fuel block br s p Hp Hgt) as Hh. simpl in Hh.
      rewrite Hrun in Hh. destruct Hh as (-> & [Hs'|Hs']);
        (split; [done|]); rewrite Hs'; simpl; eauto.
  - by rewrite (adopt_no_peak _ _ _ _ Hp) in Hrun.
Qed.

(** The latest timestamp never falls through [adopt] once there is a peak,
    and a peak is never lost. *)
Lemma adopt_timestamp fuel block br s s' p :
  _peak s = Some p ->
  final_state (adopt fuel block br s) = Some s' ->
  _latest_timestamp s <= _latest_timestamp s' /\ is_Some (_peak s').
Proof.
  intros Hp Hfin. destruct (adopt fuel block br s) as [r s1|e s1|] eqn:Hrun;
    simpl in Hfin; [| |done]; inversion Hfin; subst.
  - destruct (N.le_gt_cases (BlockRecord.weight br) (HeaderBlock.weight p)) as [Hle|Hgt].
    + rewrite (adopt_not_heavier _ _ _ _ p Hp Hle) in Hrun. inversion Hrun; subst.
      simpl. split; [lia|]. rewrite Hp. eauto.
    + pose proof (adopt_heavier fuel block br s p Hp Hgt) as Hh. simpl in Hh.
      rewrite Hrun in Hh. destruct Hh as (_ & Hs' & Hts & _).
      split; [done|]. rewrite Hs'. simpl. eauto.
  - apply adopt_raise in Hrun as (_ & Hpk & Hts & _).
    rewrite Hts, Hpk, Hp. split; [lia|eauto].
Qed.

(** Every exit of [receive_block] leaves the peak alone or makes the
    block the peak, the latter only from [adopt]'s two [NEW_PEAK] exits. *)
Lemma receive_block_peak fuel block s s' :
  final_state (receive_block fuel block s) = Some s' ->
  _peak s' = _peak s \/
  (_peak s' = Some block /\
   receive_block fuel block s = Ret (NEW_PEAK, None) s' /\
   (_peak s = None \/
    exists p required_iters,
      _peak s = Some p /\
      HeaderBlock.weight p <
      BlockRecord.weight (block_to_block_record (constants s) s required_iters block))).
Proof.
  intros Hfin. destruct (receive_block_cases fuel block s) as [? | ? ? ? ? | ? ? ? | ssi d ri ? ? ?];
    simpl in Hfin; try (inversion Hfin; subst; by left).
  destruct (adopt fuel block _ s) as [r s1|e s1|] eqn:Hrun; simpl in Hfin; [| |done];
    inversion Hfin; subst.
  - apply adopt_ret in Hrun as Hr. destruct Hr as (_ & [(-> & Hpk & Hold)|(_ & -> & _)]).
    + right. split; [done|]. split; [done|].
      destruct Hold as [?|(p & ? & ?)]; [by left|right; eauto].
    + by left.
  - apply adopt_raise in Hrun as (_ & Hpk & _). by left.
Qed.

Lemma new_weight_proof_timestamp weight_proof records s s' :
  final_state (new_weight_proof weight_proof records s) = Some s' ->
  _latest_timestamp s <= _latest_timestamp s' /\
  (is_Some (_peak s') \/ (_peak s' = _peak s /\ _latest_timestamp s' = _latest_timestamp s)).
Proof.
  intros Hfin.
  destruct (new_weight_proof_guard weight_proof s) as [Hst|[Hg|[Hp He]]].
  - rewrite (new_weight_proof_stale _ records _ Hst) in Hfin. inversion Hfin; subst.
    split; [lia|by right].
  - rewrite (new_weight_proof_fresh _ records _ Hg) in Hfin.
    pose proof (ingest_spec weight_proof records (proof_stored weight_proof s)) as Hi.
    destruct (ingest _ _ _) as [[] s1|e s1|]; simpl in Hfin; [| |done];
      inversion Hfin; subst.
    + destruct Hi as (tail & _ & Hs' & Hts). split; [exact Hts|]. left.
      rewrite Hs'. simpl. eauto.
    + unfold only_indexes in Hi. rewrite Hi. simpl. split; [lia|by right].
  - rewrite (new_weight_proof_empty _ records _ Hp He) in Hfin. inversion Hfin; subst.
    split; [lia|by right].
Qed.

End OneCall.

(** ** Consequences for sequences of calls *)

Section Sequences.
Context `{Collaborators}.

Lemma peak_weight_le_refl s : peak_weight_le s s.
Proof. unfold peak_weight_le. destruct (_peak s); [lia|done]. Qed.

Lemma peak_weight_le_trans s1 s2 s3 :
  peak_weight_le s1 s2 -> peak_weight_le s2 s3 -> peak_weight_le s1 s3.
Proof.
  unfold peak_weight_le.
  destruct (_peak s1), (_peak s2), (_peak s3); try done. lia.
Qed.

Lemma received_peak_weight
    (Hweight : forall c s required_iters b,
       BlockRecord.weight (block_to_block_record c s required_iters b)
       = HeaderBlock.weight b) s s' :
  received s s' -> peak_weight_le s s'.
Proof.
  intros [fuel block s0 s0' Hfin].
  destruct (receive_block_peak _ _ _ _ Hfin) as [Heq|(Hpk & _ & Hold)];
    unfold peak_weight_le.
  - rewrite Heq. destruct (_peak s0); [lia|done].
  - rewrite Hpk. destruct Hold as [->|(p & ri & -> & Hlt)]; [done|].
    rewrite Hweight in Hlt. lia.
Qed.

Lemma mutated_timestamp s s' :
  timestamp_initial s -> mutated s s' ->
  timestamp_initial s' /\ _latest_timestamp s <= _latest_timestamp s'.
Proof.
  unfold timestamp_initial. intros Hinit Hstep. revert Hinit.
  destruct Hstep as [fuel block s0 s0' Hfin|weight_proof records s0 s0' Hfin];
    intros Hinit.
  - destruct (receive_block_cases fuel block s0)
      as [? | ? ? ? ? | ? ? ? | ssi d ri ? ? ?];
      simpl in Hfin; try (inversion Hfin; subst; split; [done|lia]).
    destruct (_peak s0) as [p|] eqn:Hp.
    + destruct (adopt_timestamp _ _ _ _ _ _ Hp Hfin) as [Hts [p' Hp']].
      split; [|done]. by rewrite Hp'.
    + rewrite (adopt_no_peak _ _ _ _ Hp) in Hfin. simpl in Hfin.
      inversion Hfin; subst. simpl. split; [done|]. rewrite Hinit by done. lia.
  - destruct (new_weight_proof_timestamp _ _ _ _ Hfin) as [Hts [[p Hp]|[Hp Heq]]].
    + split; [|done]. by rewrite Hp.
    + split; [|done]. rewrite Hp, Heq. exact Hinit.
Qed.

End Sequences.

(** ** Properties of the state machine *)

(** *** C10 *)

(** C10.  With no peak set, [get_peak_height] returns [uint32(0)]: it does
    not fail and does not signal absence, so it answers exactly as it does
    for an instance whose peak is a genesis block at height 0. *)
Theorem get_peak_height_without_peak (s s_genesis : WalletBlockchain)
    (genesis : HeaderBlock.t) :
  _peak s = None ->
  _peak s_genesis = Some genesis ->
  HeaderBlock.height genesis = 0 ->
  get_peak_height s = 0 /\ get_peak_height s = get_peak_height s_genesis.
Proof.
  intros Hnone Hsome Hzero. unfold get_peak_height. by rewrite Hnone, Hsome, Hzero.
Qed.

(** *** C7 *)

(** C7.  When [receive_block] returns [DISCONNECTED_BLOCK] or
    [INVALID_BLOCK] the instance is exactly as it was, so the candidate is
    not in the block-record index and nothing was rolled back; whenever a
    returning call changed the instance at all the result is [NEW_PEAK] or
    [ADDED_AS_ORPHAN] without an error code, and whenever it changed the
    height index or the persisted objects the result is [NEW_PEAK]. *)
Theorem receive_block_failure_atomic `{Collaborators} (fuel : nat)
    (block : HeaderBlock.t) (s s' : WalletBlockchain)
    (r : ReceiveBlockResult) (e : option Err) :
  receive_block fuel block s = Ret (r, e) s' ->
  (r = DISCONNECTED_BLOCK \/ r = INVALID_BLOCK ->
   s' = s /\ contains_block s' (HeaderBlock.header_hash block) = false) /\
  (s' <> s -> (r = NEW_PEAK \/ r = ADDED_AS_ORPHAN) /\ e = None) /\
  (_height_to_hash s' <> _height_to_hash s \/ _basic_store s' <> _basic_store s ->
   r = NEW_PEAK).
Proof.
  intros Hrun.
  destruct (receive_block_cases fuel block s) as [Hc | Hc ? ? Hall | err Hc Hall | ssi d ri Hc Hp Hv].
  - inversion Hrun; subst. split; [intros [?|?]; done|]. split; [done|]. by intros [?|?].
  - inversion Hrun; subst. split; [done|]. split; [done|]. by intros [?|?].
  - inversion Hrun; subst. split; [done|]. split; [done|]. by intros [?|?].
  - apply adopt_ret in Hrun as (_ & [(Hr & _)|(Hr & -> & _)]); inversion Hr; subst.
    + split; [intros [?|?]; done|]. split; [intros _; split; [by left|done]|done].
    + split; [intros [?|?]; done|]. split; [intros _; split; [by right|done]|].
      by intros [?|?].
Qed.

(** *** C5 *)

(** C5.  [new_weight_proof] with a proof whose tail weighs no more than the
    current peak returns without changing the instance: peak, height index,
    block records, latest timestamp, the proof in memory and the persisted
    objects are all as before. *)
Theorem new_weight_proof_stale_noop `{Collaborators} (weight_proof : WeightProof.t)
    (records : option (list BlockRecord.t)) (s : WalletBlockchain)
    (peak tail : HeaderBlock.t) :
  get_peak_block s = Some peak ->
  last (WeightProof.recent_chain_data weight_proof) = Some tail ->
  HeaderBlock.weight tail <= HeaderBlock.weight peak ->
  new_weight_proof weight_proof records s = Ret tt s.
Proof.
  intros Hp Ht Hw. apply new_weight_proof_stale. exists peak, tail. eauto.
Qed.

(** *** C8 *)

(** C8.  Once the guard of [new_weight_proof] is passed, the proof is
    stored in memory and persisted under [SYNCED_WEIGHT_PROOF] before
    anything else happens: whatever way the call ends, the instance holds
    the new proof in both places; and when the verifier rejects the proof,
    the assertion fails with the instance changed in exactly these two
    places, no record applied. *)
Theorem new_weight_proof_persists_first `{Collaborators} (weight_proof : WeightProof.t)
    (s : WalletBlockchain) :
  guard_passed weight_proof s ->
  (forall records s',
     final_state (new_weight_proof weight_proof records s) = Some s' ->
     synced_weight_proof s' = Some weight_proof /\
     get_weight_proof (_basic_store s') "SYNCED_WEIGHT_PROOF" = Some weight_proof) /\
  (forall records, new_weight_proof weight_proof records s <> OutOfFuel) /\
  ((validate_weight_proof weight_proof).1 = false ->
   new_weight_proof weight_proof None s
   = Raise AssertionError (proof_stored weight_proof s)).
Proof.
  intros Hg. split; [|split].
  - intros records s' Hfin. rewrite (new_weight_proof_fresh _ records _ Hg) in Hfin.
    pose proof (ingest_spec weight_proof records (proof_stored weight_proof s)) as Hi.
    destruct (ingest _ _ _) as [[] s1|e s1|]; simpl in Hfin; [| |done];
      inversion Hfin; subst.
    + destruct Hi as (tail & _ & -> & _). simpl. split; [done|].
      unfold get_weight_proof, set_object.
      rewrite lookup_insert_ne by done. by rewrite lookup_insert_eq.
    + unfold only_indexes in Hi. rewrite Hi. simpl. split; [done|].
      unfold get_weight_proof, set_object. by rewrite lookup_insert_eq.
  - intros records Hfuel. rewrite (new_weight_proof_fresh _ records _ Hg) in Hfuel.
    pose proof (ingest_spec weight_proof records (proof_stored weight_proof s)) as Hi.
    by rewrite Hfuel in Hi.
  - intros Hbad. rewrite (new_weight_proof_fresh _ None _ Hg).
    unfold ingest. unfold_monad.
    destruct (validate_weight_proof weight_proof) as [success recs].
    simpl in Hbad. by subst success.
Qed.

(** *** C6 *)

(** C6, as the code has it.  After a call of [receive_block] that returned
    [NEW_PEAK], [ADDED_AS_ORPHAN] or [ALREADY_HAVE_BLOCK], the block is in
    the block-record index, and a second call with the same block returns
    [ALREADY_HAVE_BLOCK] without an error code and leaves the instance as it
    is.  After [DISCONNECTED_BLOCK] or [INVALID_BLOCK] the block is not in
    the index, and the second call returns that same result again, also
    without changing the instance.  The block record of a header is assumed
    to carry the header's hash. *)
Theorem receive_block_twice `{Collaborators}
    (Hhash : forall c s required_iters b,
       BlockRecord.header_hash (block_to_block_record c s required_iters b)
       = HeaderBlock.header_hash b)
    (fuel fuel' : nat) (block : HeaderBlock.t) (s s' : WalletBlockchain)
    (r : ReceiveBlockResult) (e : option Err) :
  receive_block fuel block s = Ret (r, e) s' ->
  (r = NEW_PEAK \/ r = ADDED_AS_ORPHAN \/ r = ALREADY_HAVE_BLOCK ->
   receive_block fuel' block s' = Ret (ALREADY_HAVE_BLOCK, None) s') /\
  (r = DISCONNECTED_BLOCK \/ r = INVALID_BLOCK ->
   receive_block fuel' block s' = Ret (r, e) s' /\ s' = s).
Proof.
  intros Hrun.
  destruct (receive_block_cases fuel block s) as [Hc | Hc ? ? Hall | err Hc Hall | ssi d ri Hc Hp Hv].
  - inversion Hrun; subst. split; [|by intros [?|?]].
    intros _. by apply receive_block_have.
  - inversion Hrun; subst. split; [by intros [?|[?|?]]|]. intros _. by split.
  - inversion Hrun; subst. split; [by intros [?|[?|?]]|]. intros _. by split.
  - apply adopt_ret in Hrun as (Hrec & Hr).
    assert (Hin : contains_block s' (HeaderBlock.header_hash block) = true).
    { apply contains_block_true. rewrite Hrec, <- (Hhash (constants s) s ri block).
      rewrite lookup_insert_eq. eauto. }
    split; [intros _; by apply receive_block_have|].
    destruct Hr as [(Hr & _)|(Hr & _)]; inversion Hr; subst; by intros [?|?].
Qed.

(** *** C4 *)

(** C4.  Along every sequence of [receive_block] calls the weight of the
    peak never decreases and a peak is never lost.  A call that returns
    [NEW_PEAK] has made its block the peak, and either there was no peak or
    the block is strictly heavier than the peak it replaces; any other
    result leaves the peak alone.  A block that weighs exactly as much as
    the peak is never adopted: the call returns, not with [NEW_PEAK], and
    the peak stays.  The block record of a header is assumed to carry the
    header's weight. *)
Theorem receive_block_weight_monotone `{Collaborators}
    (Hweight : forall c s required_iters b,
       BlockRecord.weight (block_to_block_record c s required_iters b)
       = HeaderBlock.weight b) :
  (forall s s', rtc received s s' -> peak_weight_le s s') /\
  (forall fuel block s r e s',
     receive_block fuel block s = Ret (r, e) s' ->
     (r = NEW_PEAK ->
      _peak s' = Some block /\
      (_peak s = None \/
       exists p, _peak s = Some p /\ HeaderBlock.weight p < HeaderBlock.weight block)) /\
     (r <> NEW_PEAK -> _peak s' = _peak s)) /\
  (forall fuel block s p,
     _peak s = Some p ->
     HeaderBlock.weight block = HeaderBlock.weight p ->
     exists r e s',
       receive_block fuel block s = Ret (r, e) s' /\
       r <> NEW_PEAK /\ _peak s' = Some p /\
       (r = ADDED_AS_ORPHAN \/ s' = s)).
Proof.
  split; [|split].
  - intros s s' Hrun. induction Hrun as [s|s1 s2 s3 Hstep _ IH].
    + apply peak_weight_le_refl.
    + eapply peak_weight_le_trans; [|exact IH]. by apply received_peak_weight.
  - intros fuel block s r e s' Hrun.
    destruct (receive_block_cases fuel block s)
      as [Hc | Hc ? ? Hall | err Hc Hall | ssi d ri Hc Hp Hv];
      try (inversion Hrun; subst; by split).
    apply adopt_ret in Hrun as (_ & [(Hr & Hpk & Hold)|(Hr & -> & _)]);
      inversion Hr; subst.
    + split; [|done]. intros _. split; [done|].
      destruct Hold as [?|(p & ? & Hlt)]; [by left|]. right. exists p.
      by rewrite Hweight in Hlt.
    + by split.
  - intros fuel block s p Hpk Heq.
    destruct (receive_block_cases fuel block s)
      as [Hc | Hc ? ? Hall | err Hc Hall | ssi d ri Hc Hp Hv];
      try (eexists _, _, _; split; [reflexivity|]; split; [done|]; split; by auto).
    rewrite (adopt_not_heavier _ _ _ _ p Hpk) by (rewrite Hweight; lia).
    eexists _, _, _. split; [reflexivity|]. split; [done|]. split; [done|by left].
Qed.

(** *** C9 *)

(** C9.  [set_peak_block] takes the latest timestamp from its argument when
    one is given, else from the block's transaction-block timestamp, and
    leaves it alone when there is neither.  Through [receive_block] on an
    instance that has a peak (extension or reorg), and through
    [new_weight_proof], the latest timestamp starts from the previous value
    and is never lowered.  Hence [get_latest_timestamp] never decreases
    along a sequence of such calls on an instance that [create] returned. *)
Theorem latest_timestamp_monotone `{Collaborators} :
  (forall block timestamp s,
     exists s',
       set_peak_block block timestamp s = Ret tt s' /\
       get_latest_timestamp s' =
       match timestamp, HeaderBlock.foliage_transaction_block block with
       | Some t, _ => t
       | None, Some ftb => FoliageTransactionBlock.timestamp ftb
       | None, None => get_latest_timestamp s
       end) /\
  (forall fuel block s s' p,
     _peak s = Some p ->
     final_state (receive_block fuel block s) = Some s' ->
     get_latest_timestamp s <= get_latest_timestamp s') /\
  (forall weight_proof records s s',
     final_state (new_weight_proof weight_proof records s) = Some s' ->
     get_latest_timestamp s <= get_latest_timestamp s') /\
  (forall store c s, create store c = Ret s s -> timestamp_initial s) /\
  (forall s s',
     timestamp_initial s -> rtc mutated s s' ->
     get_latest_timestamp s <= get_latest_timestamp s').
Proof.
  unfold get_latest_timestamp. split; [|split; [|split; [|split]]].
  - intros block timestamp s. unfold set_peak_block. unfold_monad.
    destruct timestamp as [t|]; simpl; [eexists; split; reflexivity|].
    destruct (HeaderBlock.foliage_transaction_block block);
      eexists; split; reflexivity.
  - intros fuel block s s' p Hp Hfin.
    destruct (receive_block_cases fuel block s)
      as [? | ? ? ? ? | ? ? ? | ssi d ri ? ? ?];
      simpl in Hfin; try (inversion Hfin; subst; lia).
    by destruct (adopt_timestamp _ _ _ _ _ _ Hp Hfin).
  - intros weight_proof records s s' Hfin.
    by destruct (new_weight_proof_timestamp _ _ _ _ Hfin).
  - intros store c s Hrun. unfold create in Hrun.
    set (s0 := with_peak _ _) in Hrun.
    assert (H0 : timestamp_initial s0) by done.
    destruct (get_weight_proof store "SYNCED_WEIGHT_PROOF") as [wp|].
    + unfold bind at 1 in Hrun.
      destruct (new_weight_proof wp None s0) as [[] s1|e s1|] eqn:Hn; [|done..].
      unfold get_self in Hrun. inversion Hrun; subst.
      apply (mutated_timestamp s0 s); [done|].
      apply (mutated_new_weight_proof wp None). by rewrite Hn.
    + unfold_monad. by inversion Hrun; subst.
  - intros s s' Hinit Hrun. induction Hrun as [s|s1 s2 s3 Hstep _ IH]; [lia|].
    destruct (mutated_timestamp _ _ Hinit Hstep) as [Hinit2 Hle].
    specialize (IH Hinit2). lia.
Qed.

(** *** C1 *)

(** C1, what the code does.  Whenever [receive_block] returns [NEW_PEAK] on
    an instance that had a peak, the block was validated with some required
    iterations, and for its block record and the fork height computed from
    it: if the fork height lies between 0 and the old peak's height (for a
    child of the peak it is the old peak's height), [height_to_hash] raises
    [KeyError] at the fork height, and if the block lies above the fork
    height, [height_to_hash] at the block's height returns a block record
    instead of a header hash. *)
Theorem new_peak_breaks_height_index `{Collaborators} (fuel : nat)
    (block : HeaderBlock.t) (s s' : WalletBlockchain) (p : HeaderBlock.t) :
  _peak s = Some p ->
  receive_block fuel block s = Ret (NEW_PEAK, None) s' ->
  exists sub_slot_iters difficulty required_iters,
    validate_finished_header_block (constants s) s block difficulty sub_slot_iters
    = (Some required_iters, None) /\
    let block_record := block_to_block_record (constants s) s required_iters block in
    let fork_height := fork_height_of s block_record p in
    ((0 <= fork_height <= Z.of_N (HeaderBlock.height p))%Z ->
     height_to_hash (Z.to_N fork_height) s' = Raise KeyError s') /\
    ((fork_height < Z.of_N (BlockRecord.height block_record))%Z ->
     exists r,
       height_to_hash (BlockRecord.height block_record) s' = Ret (EntryRecord r) s').
Proof.
  intros Hpk Hrun.
  destruct (receive_block_cases fuel block s)
    as [Hc | Hc ? ? Hall | err Hc Hall | ssi d ri Hc Hp Hv]; try done.
  exists ssi, d, ri. split; [done|]. simpl.
  set (br := block_to_block_record (constants s) s ri block) in *.
  destruct (N.le_gt_cases (BlockRecord.weight br) (HeaderBlock.weight p)) as [Hle|Hgt].
  { by rewrite (adopt_not_heavier _ _ _ _ p Hpk Hle) in Hrun. }
  pose proof (adopt_heavier fuel block br s p Hpk Hgt) as Hh. simpl in Hh.
  rewrite Hrun in Hh. destruct Hh as (_ & _ & _ & Hhole & _ & _ & Hrec).
  unfold height_to_hash. split.
  - intros Hf. rewrite Hhole; [done|lia|lia].
  - intros Hf. destruct (Hrec Hf) as [r Hr]. exists r. by rewrite Hr.
Qed.

(** *** C3 *)

(** C3, what the code does.  When the store holds a weight proof and a peak
    block that weighs at least as much as the proof's tail (as after any
    earlier run that adopted the proof), [create] calls [new_weight_proof],
    which takes the proof for stale and returns at once: the instance
    [create] returns has the persisted peak and two empty indexes. *)
Theorem create_does_not_rebuild `{Collaborators} (store : KeyValStore)
    (c : ConsensusConstants) (weight_proof : WeightProof.t)
    (peak tail : HeaderBlock.t) :
  get_weight_proof store "SYNCED_WEIGHT_PROOF" = Some weight_proof ->
  get_header_block store "PEAK_BLOCK" = Some peak ->
  last (WeightProof.recent_chain_data weight_proof) = Some tail ->
  HeaderBlock.weight tail <= HeaderBlock.weight peak ->
  exists self,
    create store c = Ret self self /\
    synced_weight_proof self = Some weight_proof /\
    _peak self = Some peak /\
    _block_records self = ∅ /\
    _height_to_hash self = ∅.
Proof.
  intros Hwp Hpk Ht Hw. unfold create. rewrite Hwp.
  unfold get_peak_block at 1. simpl. rewrite Hpk.
  unfold bind at 1. rewrite new_weight_proof_stale.
  - unfold_monad. eexists. split; [reflexivity|]. by simpl.
  - exists peak, tail. by simpl.
Qed.

(** ** Further properties of the methods *)

Section Lookups.
Context `{Collaborators}.

Lemma for_each_app {A B} (xs ys : list A) (body : A -> B -> M B) (acc : B) s :
  for_each (xs ++ ys) body acc s =
  (acc' <- for_each xs body acc ;; for_each ys body acc')%method s.
Proof.
  revert acc s. induction xs as [|x xs IH]; intros acc s; simpl; [reflexivity|].
  unfold bind. destruct (body x acc s) as [acc1 s1|e s1|]; [|done..].
  rewrite IH. reflexivity.
Qed.

(** The deletions succeed when every listed height is present, the heights
    being pairwise distinct. *)
Lemma del_loop_total (hs : list Z) s :
  NoDup (Z.to_N <$> hs) ->
  (forall k, k ∈ Z.to_N <$> hs -> is_Some (_height_to_hash s !! k)) ->
  exists s', for_each hs (fun h _ => del_height h) tt s = Ret tt s'.
Proof.
  revert s. induction hs as [|h hs IH]; intros s Hnd Hall; simpl.
  { eexists. reflexivity. }
  rewrite fmap_cons in Hnd. apply NoDup_cons in Hnd as [Hnin Hnd].
  unfold bind, del_height.
  destruct (Hall (Z.to_N h)) as [e He]; [rewrite fmap_cons; by left|]. rewrite He.
  apply IH; [done|]. intros k Hk. simpl.
  rewrite lookup_delete_ne by (intros Heq; apply Hnin; by rewrite Heq).
  apply Hall. rewrite fmap_cons. by right.
Qed.

Lemma NoDup_range_keys lo hi : (0 <= lo)%Z -> NoDup (Z.to_N <$> range lo hi).
Proof.
  intros Hlo. apply NoDup_fmap_2_strong; [|apply NoDup_seqZ].
  intros x y Hx%elem_of_range Hy%elem_of_range Heq. lia.
Qed.

Lemma elem_of_range_keys k lo hi :
  (0 <= lo)%Z -> k ∈ Z.to_N <$> range lo hi <-> (lo <= Z.of_N k < hi)%Z.
Proof.
  intros Hlo. rewrite list_elem_of_fmap. split.
  - intros (h & -> & Hh%elem_of_range). lia.
  - intros Hk. exists (Z.of_N k). split; [by rewrite N2Z.id|].
    apply elem_of_range. lia.
Qed.

Lemma range_split lo mid hi :
  (lo <= mid < hi)%Z -> range lo hi = range lo mid ++ mid :: range (mid + 1) hi.
Proof.
  intros Hm. unfold range.
  replace (hi - lo)%Z with ((mid - lo) + Z.succ (hi - (mid + 1)))%Z by lia.
  rewrite seqZ_app by lia. rewrite (seqZ_cons (lo + (mid - lo))) by lia.
  f_equal. f_equal; [lia|]. f_equal; lia.
Qed.

Lemma rolled_back_lookup (height : Z) (p : HeaderBlock.t) (m : gmap N HeightEntry) k :
  rolled_back height p m !! k =
  if decide (Z.max 0 height <= Z.of_N k <= Z.of_N (HeaderBlock.height p))%Z
  then None else m !! k.
Proof.
  unfold rolled_back. case_decide as Hk.
  - apply map_lookup_filter_None. right. intros e _ Hn. by apply Hn.
  - destruct (m !! k) as [e|] eqn:E.
    + by apply map_lookup_filter_Some.
    + apply map_lookup_filter_None. by left.
Qed.

Lemma rolled_back_until_lookup (height stop : Z) (m : gmap N HeightEntry) k :
  rolled_back_until height stop m !! k =
  if decide (Z.max 0 height <= Z.of_N k < stop)%Z then None else m !! k.
Proof.
  unfold rolled_back_until. case_decide as Hk.
  - apply map_lookup_filter_None. right. intros e _ Hn. by apply Hn.
  - destruct (m !! k) as [e|] eqn:E.
    + by apply map_lookup_filter_Some.
    + apply map_lookup_filter_None. by left.
Qed.

Lemma receive_block_accepted fuel block s required_iters :
  accepted s block required_iters ->
  receive_block fuel block s =
  adopt fuel block (block_to_block_record (constants s) s required_iters block) s.
Proof.
  intros (Hnew & ssi & d & Hp & Hv). by rewrite receive_block_unfold, Hnew, Hp, Hv.
Qed.

Lemma adopt_unfold_heavier fuel block br s p :
  _peak s = Some p ->
  HeaderBlock.weight p < BlockRecord.weight br ->
  adopt fuel block br s =
  (_rollback_to_height (fork_height_of s br p) ;;
   self <- get_self ;;
   latest_timestamp <-
     repopulate fuel (fork_height_of s br p) br (_latest_timestamp self) ;;
   set_peak_block block (Some latest_timestamp) ;;
   ret (NEW_PEAK, None))%method (record_added br s).
Proof.
  intros Hp Hw. unfold adopt, add_block_record.
  unfold bind at 1, modify. fold (record_added br s).
  unfold bind at 1, get_self. simpl. rewrite Hp.
  by destruct (N.ltb_spec (HeaderBlock.weight p) (BlockRecord.weight br)); [|lia].
Qed.

End Lookups.

(** *** The block-record index *)

(** X1.  [add_block_record] followed by a lookup: the record is returned by
    [block_record] and [try_block_record] under its header hash, whatever
    was stored there before; every other hash and the height index are
    untouched; adding the record again changes nothing.  A hash that is not
    in the index makes [block_record] raise [KeyError] and
    [try_block_record] return [None], and only then. *)
Theorem add_block_record_then_lookup (r : BlockRecord.t) (s : WalletBlockchain) :
  exists s',
    add_block_record r s = Ret tt s' /\
    block_record (BlockRecord.header_hash r) s' = Ret r s' /\
    try_block_record s' (BlockRecord.header_hash r) = Some r /\
    contains_block s' (BlockRecord.header_hash r) = true /\
    (forall h, h <> BlockRecord.header_hash r ->
               try_block_record s' h = try_block_record s h) /\
    _height_to_hash s' = _height_to_hash s /\
    add_block_record r s' = Ret tt s' /\
    (forall h, contains_block s h = false <->
               block_record h s = Raise KeyError s /\ try_block_record s h = None).
Proof.
  eexists. split; [reflexivity|]. simpl.
  split; [unfold block_record; simpl; by rewrite lookup_insert_eq|].
  split; [rewrite try_block_record_lookup; simpl; by rewrite lookup_insert_eq|].
  split; [apply contains_block_true; simpl; rewrite lookup_insert_eq; eauto|].
  split.
  { intros h Hne. rewrite !try_block_record_lookup. simpl.
    by rewrite lookup_insert_ne. }
  split; [done|]. split.
  { unfold add_block_record, modify. simpl. by rewrite insert_insert_eq. }
  intros h. rewrite contains_block_false, try_block_record_lookup.
  unfold block_record. split.
  - by intros ->.
  - by intros [_ ?].
Qed.

(** *** [_rollback_to_height] *)

(** What a returning [_rollback_to_height] has done. *)
Lemma rollback_returns_exact (height : Z) (s : WalletBlockchain)
    (p : HeaderBlock.t) :
  _peak s = Some p ->
  (forall k, (Z.max 0 height <= Z.of_N k <= Z.of_N (HeaderBlock.height p))%Z ->
             is_Some (_height_to_hash s !! k)) ->
  _rollback_to_height height s =
  Ret tt (with_store (remove_object (_basic_store s) "PEAK_BLOCK")
            (with_height_to_hash (rolled_back height p (_height_to_hash s)) s)).
Proof.
  intros Hp Hall.
  destruct (del_loop_total
              (range (Z.max 0 height) (Z.of_N (HeaderBlock.height p) + 1)) s)
    as [s1 Hloop].
  { apply NoDup_range_keys. lia. }
  { intros k Hk%elem_of_range_keys; [|lia]. apply Hall. lia. }
  pose proof (rollback_spec height s p Hp) as Hspec.
  assert (Hrun : _rollback_to_height height s
                 = Ret tt (with_store (remove_object (_basic_store s1) "PEAK_BLOCK") s1)).
  { unfold _rollback_to_height, bind at 1, get_self. rewrite Hp.
    unfold bind at 1. by rewrite Hloop. }
  rewrite Hrun in Hspec. destruct Hspec as (Hs' & Hgone & Hkeep).
  assert (Hmap : _height_to_hash s1 = rolled_back height p (_height_to_hash s)).
  { apply map_eq. intros k. rewrite rolled_back_lookup. case_decide.
    - by apply Hgone.
    - apply Hkeep. lia. }
  rewrite Hrun. f_equal. simpl in Hs'. rewrite Hmap in Hs'. exact Hs'.
Qed.

(** Where a raising [_rollback_to_height] stops. *)
Lemma rollback_raises_exact (height missing : Z) (s : WalletBlockchain)
    (p : HeaderBlock.t) :
  _peak s = Some p ->
  (Z.max 0 height <= missing <= Z.of_N (HeaderBlock.height p))%Z ->
  _height_to_hash s !! Z.to_N missing = None ->
  (forall k, (Z.max 0 height <= Z.of_N k < missing)%Z ->
             is_Some (_height_to_hash s !! k)) ->
  _rollback_to_height height s =
  Raise KeyError
    (with_height_to_hash (rolled_back_until height missing (_height_to_hash s)) s).
Proof.
  intros Hp Hin Hmiss Hall.
  unfold _rollback_to_height, bind at 1, get_self. rewrite Hp. unfold bind at 1.
  rewrite (range_split _ missing) by lia. rewrite for_each_app. unfold bind at 1.
  destruct (del_loop_total (range (Z.max 0 height) missing) s) as [s1 Hloop].
  { apply NoDup_range_keys. lia. }
  { intros k Hk%elem_of_range_keys; [|lia]. by apply Hall. }
  pose proof (del_loop_spec (range (Z.max 0 height) missing) s) as Hspec.
  rewrite Hloop in Hspec. rewrite Hloop. destruct Hspec as (Hf & Hgone & Hkeep).
  assert (Hmap : _height_to_hash s1 = rolled_back_until height missing (_height_to_hash s)).
  { apply map_eq. intros k. rewrite rolled_back_until_lookup. case_decide as Hk.
    - apply Hgone. apply elem_of_range_keys; lia.
    - apply Hkeep. intros Hk'%elem_of_range_keys; [done|lia]. }
  simpl. unfold bind, del_height.
  rewrite Hkeep, Hmiss.
  - unfold only_index in Hf. by rewrite Hf, Hmap.
  - intros Hk%elem_of_range_keys; lia.
Qed.

(** X2.  On an instance with a peak, [_rollback_to_height(height)] returns
    when every height from [max(0, height)] to the peak's height is in the
    height index.  It then has deleted exactly these heights and removed the
    persisted peak, while the peak in memory, and so the answer of
    [get_peak_block], stays.  A negative [height] acts as 0, and a [height]
    above the peak's deletes nothing. *)
Theorem rollback_to_height_returns (height : Z) (s : WalletBlockchain)
    (p : HeaderBlock.t) :
  _peak s = Some p ->
  (forall k, (Z.max 0 height <= Z.of_N k <= Z.of_N (HeaderBlock.height p))%Z ->
             is_Some (_height_to_hash s !! k)) ->
  exists s',
    _rollback_to_height height s = Ret tt s' /\
    s' = with_store (remove_object (_basic_store s) "PEAK_BLOCK")
           (with_height_to_hash (rolled_back height p (_height_to_hash s)) s) /\
    (forall k, _height_to_hash s' !! k =
               if decide (Z.max 0 height <= Z.of_N k <= Z.of_N (HeaderBlock.height p))%Z
               then None else _height_to_hash s !! k) /\
    get_peak_block s' = Some p /\
    get_header_block (_basic_store s') "PEAK_BLOCK" = None.
Proof.
  intros Hp Hall. eexists.
  split; [by apply (rollback_returns_exact height s p)|]. split; [done|]. simpl.
  split; [apply rolled_back_lookup|].
  split; [unfold get_peak_block; simpl; by rewrite Hp|].
  unfold get_header_block, remove_object. by rewrite lookup_delete_eq.
Qed.

(** X3.  When a height between [max(0, height)] and the peak's height is
    missing from the height index, [_rollback_to_height(height)] raises
    [KeyError] at the first such height.  The heights below it are already
    deleted by then, and the persisted peak is still in the store. *)
Theorem rollback_to_height_key_error (height missing : Z) (s : WalletBlockchain)
    (p : HeaderBlock.t) :
  _peak s = Some p ->
  (Z.max 0 height <= missing <= Z.of_N (HeaderBlock.height p))%Z ->
  _height_to_hash s !! Z.to_N missing = None ->
  (forall k, (Z.max 0 height <= Z.of_N k < missing)%Z ->
             is_Some (_height_to_hash s !! k)) ->
  exists s',
    _rollback_to_height height s = Raise KeyError s' /\
    (forall k, _height_to_hash s' !! k =
               if decide (Z.max 0 height <= Z.of_N k < missing)%Z
               then None else _height_to_hash s !! k) /\
    _peak s' = Some p /\
    _basic_store s' = _basic_store s /\
    _block_records s' = _block_records s.
Proof.
  intros Hp Hin Hmiss Hall. eexists.
  split; [by apply (rollback_raises_exact height missing s p)|]. simpl.
  split; [apply rolled_back_until_lookup|]. done.
Qed.

(** *** [receive_block] *)

Section MoreReceiveBlock.
Context `{Collaborators}.

Lemma receive_block_cases_accepted fuel block s :
  (exists r e, receive_block fuel block s = Ret (r, e) s /\
               (r = ALREADY_HAVE_BLOCK \/ r = DISCONNECTED_BLOCK \/ r = INVALID_BLOCK)) \/
  (exists required_iters,
     accepted s block required_iters /\
     receive_block fuel block s =
     adopt fuel block (block_to_block_record (constants s) s required_iters block) s).
Proof.
  destruct (receive_block_cases fuel block s)
    as [Hc | Hc ? ? Hall | err Hc Hall | ssi d ri Hc Hp Hv].
  - left. eauto 10.
  - left. eauto 10.
  - left. eauto 10.
  - right. exists ri. unfold accepted. eauto 10.
Qed.

(** Every way [adopt] can end: the record is in the index, and of the
    store only the persisted peak may have changed. *)
Lemma adopt_final fuel block br s s' :
  final_state (adopt fuel block br s) = Some s' ->
  constants s' = constants s /\
  synced_weight_proof s' = synced_weight_proof s /\
  _block_records s' = <[BlockRecord.header_hash br := br]> (_block_records s) /\
  (forall key, key <> "PEAK_BLOCK"%string ->
               _basic_store s' !! key = _basic_store s !! key).
Proof.
  intros Hfin. destruct (_peak s) as [p|] eqn:Hp.
  - destruct (N.le_gt_cases (BlockRecord.weight br) (HeaderBlock.weight p)) as [Hle|Hgt].
    + rewrite (adopt_not_heavier _ _ _ _ p Hp Hle) in Hfin. by inversion Hfin; subst.
    + pose proof (adopt_heavier fuel block br s p Hp Hgt) as Hh. simpl in Hh.
      destruct (adopt fuel block br s) as [r s1|e s1|]; simpl in Hfin; [| |done];
        inversion Hfin; subst.
      * destruct Hh as (_ & Hs' & _). rewrite Hs'. simpl. repeat split; [].
        intros key Hkey. unfold set_object. by rewrite lookup_insert_ne.
      * destruct Hh as (_ & [Hs'|Hs']); rewrite Hs'; simpl; repeat split; [].
        intros key Hkey. unfold remove_object. by rewrite lookup_delete_ne.
  - rewrite (adopt_no_peak _ _ _ _ Hp) in Hfin. inversion Hfin; subst. simpl.
    repeat split; []. intros key Hkey. unfold set_object. by rewrite lookup_insert_ne.
Qed.

Lemma repopulate_stop fuel (fork_height : Z) curr latest s :
  (Z.of_N (BlockRecord.height curr) <= fork_height)%Z ->
  repopulate fuel fork_height curr latest s = Ret latest s.
Proof.
  intros Hle.
  destruct fuel; simpl;
    by destruct (Z.gtb_spec (Z.of_N (BlockRecord.height curr)) fork_height); [lia|].
Qed.

(** The walk ends when heights go down along parent links: the height of
    the record it starts from bounds the number of rounds. *)
Lemma repopulate_terminates fuel (fork_height : Z) curr latest s :
  heights_decrease (_block_records s) ->
  (exists h, _block_records s !! h = Some curr) ->
  (N.to_nat (BlockRecord.height curr) < fuel)%nat ->
  repopulate fuel fork_height curr latest s <> OutOfFuel.
Proof.
  revert curr latest s. induction fuel as [|fuel IH]; intros curr latest s Hdec [h Hin] Hf;
    [lia|].
  simpl. destruct (Z.of_N (BlockRecord.height curr) >? fork_height)%Z; [|done].
  unfold bind at 1, modify. destruct (BlockRecord.height curr =? 0); [done|].
  unfold bind, block_record. simpl.
  destruct (_block_records s !! BlockRecord.prev_hash curr) as [parent|] eqn:Ep; [|done].
  apply IH; simpl; [done|eauto|].
  specialize (Hdec h curr parent Hin Ep). lia.
Qed.

End MoreReceiveBlock.

(** X4.  A heavier accepted block cannot replace the peak when a height
    between the fork height and the peak's height is missing from the height
    index: the rollback raises [KeyError] at the first such height, and so
    does [receive_block].  By then the block record has been added and the
    heights below the missing one have been deleted; the peak in memory and
    in the store is as before.  For a child of the peak the fork height is
    the peak's height, so the peak's own height has to be in the index. *)
Theorem reorg_needs_every_height `{Collaborators} (fuel : nat)
    (block : HeaderBlock.t) (s : WalletBlockchain) (p : HeaderBlock.t)
    (required_iters : uint64) (missing : Z) :
  let br := block_to_block_record (constants s) s required_iters block in
  let fork_height := fork_height_of s br p in
  _peak s = Some p ->
  accepted s block required_iters ->
  HeaderBlock.weight p < BlockRecord.weight br ->
  (Z.max 0 fork_height <= missing <= Z.of_N (HeaderBlock.height p))%Z ->
  _height_to_hash s !! Z.to_N missing = None ->
  (forall k, (Z.max 0 fork_height <= Z.of_N k < missing)%Z ->
             is_Some (_height_to_hash s !! k)) ->
  receive_block fuel block s =
  Raise KeyError
    (with_height_to_hash (rolled_back_until fork_height missing (_height_to_hash s))
       (record_added br s)) /\
  (BlockRecord.prev_hash br = HeaderBlock.header_hash p ->
   fork_height = Z.of_N (HeaderBlock.height p)).
Proof.
  intros br f Hp Hacc Hw Hin Hmiss Hall. split.
  - rewrite (receive_block_accepted _ _ _ _ Hacc). fold br.
    rewrite (adopt_unfold_heavier _ _ _ _ p Hp Hw). fold f. unfold bind at 1.
    by rewrite (rollback_raises_exact f missing (record_added br s) p).
  - intros Hprev. unfold f, fork_height_of. by rewrite Hprev, N.eqb_refl.
Qed.

(** X5.  When [receive_block] raises, the exception is a [KeyError], the
    peak in memory and the latest timestamp are as before, the weight proof
    is untouched, and the block is already in the block-record index: a
    second call with the same block returns [ALREADY_HAVE_BLOCK], so the
    block is not adopted by retrying.  The block record of a header is
    assumed to carry the header's hash. *)
Theorem receive_block_raise_then_retry `{Collaborators}
    (Hhash : forall c s required_iters b,
       BlockRecord.header_hash (block_to_block_record c s required_iters b)
       = HeaderBlock.header_hash b)
    (fuel fuel' : nat) (block : HeaderBlock.t) (s s' : WalletBlockchain) (e : Exn) :
  receive_block fuel block s = Raise e s' ->
  e = KeyError /\
  _peak s' = _peak s /\
  get_latest_timestamp s' = get_latest_timestamp s /\
  synced_weight_proof s' = synced_weight_proof s /\
  contains_block s' (HeaderBlock.header_hash block) = true /\
  receive_block fuel' block s' = Ret (ALREADY_HAVE_BLOCK, None) s'.
Proof.
  intros Hrun.
  destruct (receive_block_cases_accepted fuel block s)
    as [(r & e' & Heq & _)|(ri & Hacc & Heq)]; [congruence|].
  rewrite Heq in Hrun.
  destruct (adopt_raise _ _ _ _ _ _ Hrun) as (-> & Hpk & Hts & _).
  destruct (adopt_final fuel block
              (block_to_block_record (constants s) s ri block) s s')
    as (_ & Hwp & Hrec & _); [by rewrite Hrun|].
  assert (Hin : contains_block s' (HeaderBlock.header_hash block) = true).
  { apply contains_block_true. rewrite Hrec, <- (Hhash (constants s) s ri block).
    rewrite lookup_insert_eq. eauto. }
  repeat split; try done. by apply receive_block_have.
Qed.

(** X6.  On an instance without a peak [receive_block] always returns: it
    never raises, needs no fuel and never answers [ADDED_AS_ORPHAN].  When
    it answers [NEW_PEAK] the block was accepted, whatever its height and
    weight; it is the peak in memory and in the store, its header hash is
    what [height_to_hash] returns at its height, and no other height has
    changed. *)
Theorem receive_block_without_peak `{Collaborators} (fuel : nat)
    (block : HeaderBlock.t) (s : WalletBlockchain) :
  _peak s = None ->
  exists r e s',
    receive_block fuel block s = Ret (r, e) s' /\
    r <> ADDED_AS_ORPHAN /\
    (r = NEW_PEAK ->
     exists required_iters,
       accepted s block required_iters /\
       let br := block_to_block_record (constants s) s required_iters block in
       e = None /\
       get_peak_block s' = Some block /\
       get_header_block (_basic_store s') "PEAK_BLOCK" = Some block /\
       height_to_hash (BlockRecord.height br) s'
       = Ret (EntryHash (BlockRecord.header_hash br)) s' /\
       (forall k, k <> BlockRecord.height br ->
                  _height_to_hash s' !! k = _height_to_hash s !! k)).
Proof.
  intros Hp.
  destruct (receive_block_cases_accepted fuel block s)
    as [(r & e & Heq & Hr)|(ri & Hacc & Heq)].
  - exists r, e, s. split; [done|].
    destruct Hr as [Hr|[Hr|Hr]]; subst r; by split.
  - rewrite (adopt_no_peak _ _ _ _ Hp) in Heq.
    eexists _, _, _. split; [exact Heq|]. split; [done|]. intros _.
    exists ri. split; [done|]. simpl. split; [done|]. split; [done|].
    split; [unfold get_header_block, set_object; by rewrite lookup_insert_eq|].
    split; [unfold height_to_hash; simpl; by rewrite lookup_insert_eq|].
    intros k Hk. by rewrite lookup_insert_ne.
Qed.

(** X7.  [ADDED_AS_ORPHAN] comes without an error code and means exactly
    this: the block was accepted, there is a peak that weighs at least as
    much as the block's record, and the one change to the instance is that
    the record is in the block-record index; peak, height index, latest
    timestamp and store are as before. *)
Theorem orphan_only_adds_record `{Collaborators} (fuel : nat)
    (block : HeaderBlock.t) (s s' : WalletBlockchain) (e : option Err) :
  receive_block fuel block s = Ret (ADDED_AS_ORPHAN, e) s' ->
  e = None /\
  exists required_iters p,
    accepted s block required_iters /\
    let br := block_to_block_record (constants s) s required_iters block in
    _peak s = Some p /\
    BlockRecord.weight br <= HeaderBlock.weight p /\
    s' = record_added br s.
Proof.
  intros Hrun.
  destruct (receive_block_cases_accepted fuel block s)
    as [(r & e' & Heq & Hr)|(ri & Hacc & Heq)].
  - rewrite Heq in Hrun. inversion Hrun; subst. by destruct Hr as [?|[?|?]].
  - rewrite Heq in Hrun.
    apply adopt_ret in Hrun as (_ & [(Hr & _)|(Hr & -> & p & Hp & Hw)]);
      inversion Hr; subst.
    split; [done|]. exists ri, p. by simpl.
Qed.

(** X8.  [receive_block] never touches the constants or the weight proof,
    neither the one in memory nor the one persisted under
    [SYNCED_WEIGHT_PROOF], however the call ends. *)
Theorem receive_block_keeps_weight_proof `{Collaborators} (fuel : nat)
    (block : HeaderBlock.t) (s s' : WalletBlockchain) :
  final_state (receive_block fuel block s) = Some s' ->
  constants s' = constants s /\
  synced_weight_proof s' = synced_weight_proof s /\
  get_weight_proof (_basic_store s') "SYNCED_WEIGHT_PROOF"
  = get_weight_proof (_basic_store s) "SYNCED_WEIGHT_PROOF".
Proof.
  intros Hfin.
  destruct (receive_block_cases_accepted fuel block s)
    as [(r & e & Heq & _)|(ri & _ & Heq)]; rewrite Heq in Hfin.
  - by inversion Hfin; subst.
  - destruct (adopt_final _ _ _ _ _ Hfin) as (Hc & Hwp & _ & Hst).
    split; [done|]. split; [done|]. unfold get_weight_proof. by rewrite Hst.
Qed.

(** X9.  A block above height 0 is answered with [DISCONNECTED_BLOCK]
    whenever the block-record index is empty, peak or no peak.  [create]
    returns such an instance when no weight proof is persisted: it does not
    raise, the peak is the persisted one, the latest timestamp is
    [uint64(0)] also when that peak is a transaction block, and both indexes
    are empty. *)
Theorem empty_index_disconnects `{Collaborators} :
  (forall fuel block s,
     _block_records s = ∅ ->
     HeaderBlock.height block <> 0 ->
     receive_block fuel block s
     = Ret (DISCONNECTED_BLOCK, Some INVALID_PREV_BLOCK_HASH) s) /\
  (forall store c,
     get_weight_proof store "SYNCED_WEIGHT_PROOF" = None ->
     create store c =
     (let self := mkWalletBlockchain c store None
                    (get_header_block store "PEAK_BLOCK") ∅ ∅ 0 in
      Ret self self)).
Proof.
  split.
  - intros fuel block s Hempty Hh. rewrite receive_block_unfold.
    assert (Hnew : contains_block s (HeaderBlock.header_hash block) = false)
      by (apply contains_block_false; by rewrite Hempty).
    rewrite Hnew. unfold validation_params.
    destruct (N.eqb_spec (HeaderBlock.height block) 0); [done|].
    rewrite try_block_record_lookup, Hempty. done.
  - intros store c Hwp. unfold create. by rewrite Hwp.
Qed.

(** X10.  The regular extension.  The peak's height is in the height index
    and the accepted block is a heavier child of the peak, above it, whose
    parent record is in the index at a height not above the peak's.  Then
    [receive_block] returns [NEW_PEAK] with one round of fuel, and the
    instance is exactly this: the block is the peak in memory and in the
    store, its record is in the block-record index, the height index has
    lost the old peak's height and holds the block record (not the hash) at
    the new height, and the latest timestamp is the larger of the previous
    one and the record's. *)
Theorem direct_extension `{Collaborators} (fuel : nat)
    (block : HeaderBlock.t) (s : WalletBlockchain) (p : HeaderBlock.t)
    (required_iters : uint64) (parent : BlockRecord.t) :
  let br := block_to_block_record (constants s) s required_iters block in
  _peak s = Some p ->
  accepted s block required_iters ->
  BlockRecord.prev_hash br = HeaderBlock.header_hash p ->
  HeaderBlock.weight p < BlockRecord.weight br ->
  HeaderBlock.height p < BlockRecord.height br ->
  is_Some (_height_to_hash s !! HeaderBlock.height p) ->
  _block_records (record_added br s) !! BlockRecord.prev_hash br = Some parent ->
  BlockRecord.height parent <= HeaderBlock.height p ->
  (1 <= fuel)%nat ->
  receive_block fuel block s =
  Ret (NEW_PEAK, None)
    (mkWalletBlockchain (constants s)
       (set_object (_basic_store s) "PEAK_BLOCK" (StoredHeaderBlock block))
       (synced_weight_proof s) (Some block)
       (<[BlockRecord.height br := EntryRecord br]>
          (delete (HeaderBlock.height p) (_height_to_hash s)))
       (<[BlockRecord.header_hash br := br]> (_block_records s))
       (match BlockRecord.timestamp br with
        | Some t => if _latest_timestamp s <? t then t else _latest_timestamp s
        | None => _latest_timestamp s
        end)).
Proof.
  intros br Hp Hacc Hprev Hw Hh Hidx Hparent Hph Hfuel.
  rewrite (receive_block_accepted _ _ _ _ Hacc). fold br.
  rewrite (adopt_unfold_heavier _ _ _ _ p Hp Hw).
  assert (Hf : fork_height_of s br p = Z.of_N (HeaderBlock.height p)).
  { unfold fork_height_of. by rewrite Hprev, N.eqb_refl. }
  rewrite Hf. unfold bind at 1.
  rewrite (rollback_returns_exact (Z.of_N (HeaderBlock.height p))
             (record_added br s) p); [|done|].
  2:{ intros k Hk. simpl. assert (k = HeaderBlock.height p) as -> by lia. done. }
  assert (Hmap : rolled_back (Z.of_N (HeaderBlock.height p)) p (_height_to_hash s)
                 = delete (HeaderBlock.height p) (_height_to_hash s)).
  { apply map_eq. intros k. rewrite rolled_back_lookup. case_decide as Hk.
    - assert (k = HeaderBlock.height p) as -> by lia. by rewrite lookup_delete_eq.
    - rewrite lookup_delete_ne; [done|]. intros <-. lia. }
  simpl. rewrite Hmap.
  unfold bind at 1, get_self. unfold bind at 1.
  destruct fuel as [|fuel]; [lia|]. simpl repopulate.
  destruct (Z.gtb_spec (Z.of_N (BlockRecord.height br)) (Z.of_N (HeaderBlock.height p)));
    [|lia].
  unfold bind at 1, modify.
  destruct (N.eqb_spec (BlockRecord.height br) 0); [lia|].
  unfold bind at 1, block_record. simpl in Hparent |- *. rewrite Hparent.
  rewrite repopulate_stop by lia.
  unfold set_peak_block. unfold_monad. f_equal. f_equal.
  unfold set_object, remove_object. by rewrite insert_delete_eq.
Qed.

(** X11.  Termination of the walk in [receive_block].  When, with the new
    record added, heights go strictly down along the parent links of the
    block-record index, the walk takes at most as many rounds as the new
    record's height plus one: with that much fuel [receive_block] comes to
    an end.  On the other hand a record above the fork height that is its
    own parent keeps the walk going whatever the fuel: the Python loop does
    not end. *)
Theorem receive_block_walk_terminates `{Collaborators} :
  (forall fuel block s,
     (forall required_iters,
        accepted s block required_iters ->
        let br := block_to_block_record (constants s) s required_iters block in
        heights_decrease (<[BlockRecord.header_hash br := br]> (_block_records s)) /\
        (N.to_nat (BlockRecord.height br) < fuel)%nat) ->
     receive_block fuel block s <> OutOfFuel) /\
  (forall fuel fork_height curr latest s,
     _block_records s !! BlockRecord.prev_hash curr = Some curr ->
     (fork_height < Z.of_N (BlockRecord.height curr))%Z ->
     BlockRecord.height curr <> 0 ->
     repopulate fuel fork_height curr latest s = OutOfFuel).
Proof.
  split.
  - intros fuel block s Hwf.
    destruct (receive_block_cases_accepted fuel block s)
      as [(r & e & Heq & _)|(ri & Hacc & Heq)]; rewrite Heq; [done|].
    destruct (Hwf ri Hacc) as [Hdec Hfuel].
    set (br := block_to_block_record (constants s) s ri block) in *.
    destruct (_peak s) as [p|] eqn:Hp; [|by rewrite (adopt_no_peak _ _ _ _ Hp)].
    destruct (N.le_gt_cases (BlockRecord.weight br) (HeaderBlock.weight p)) as [Hle|Hgt].
    { by rewrite (adopt_not_heavier _ _ _ _ p Hp Hle). }
    rewrite (adopt_unfold_heavier _ _ _ _ p Hp Hgt). unfold bind at 1.
    pose proof (rollback_spec (fork_height_of s br p) (record_added br s) p Hp) as Hr.
    destruct (_rollback_to_height _ (record_added br s)) as [[] s1|e s1|]; [|done..].
    destruct Hr as (Hs1 & _). unfold bind at 1, get_self. unfold bind at 1.
    assert (Hrec : _block_records s1
                   = <[BlockRecord.header_hash br := br]> (_block_records s))
      by (rewrite Hs1; done).
    pose proof (repopulate_terminates fuel (fork_height_of s br p) br
                  (_latest_timestamp s1) s1) as Ht.
    destruct (repopulate fuel _ br _ s1) as [t s2|e s2|]; [done..|].
    exfalso. apply Ht; [by rewrite Hrec| |done|done].
    exists (BlockRecord.header_hash br). rewrite Hrec. by rewrite lookup_insert_eq.
  - intros fuel fork_height curr latest s Hself Hgt Hnz. revert latest s Hself.
    induction fuel as [|fuel IH]; intros latest s Hself; simpl;
      destruct (Z.gtb_spec (Z.of_N (BlockRecord.height curr)) fork_height); try lia;
      [done|].
    unfold bind at 1, modify. destruct (N.eqb_spec (BlockRecord.height curr) 0); [done|].
    unfold bind, block_record. simpl. rewrite Hself. by apply IH.
Qed.

(** *** [new_weight_proof] and [create] *)

Section MoreNewWeightProof.
Context `{Collaborators}.

Lemma apply_record_final (r : BlockRecord.t) latest s s1 :
  final_state (apply_record r latest s) = Some s1 -> s1 = index_record s r.
Proof.
  unfold apply_record, add_block_record. unfold_monad. unfold index_record.
  destruct (BlockRecord.is_transaction_block r); [|by intros [= <-]].
  destruct (BlockRecord.timestamp r) as [t|]; [|by intros [= <-]].
  by destruct (latest <? t); intros [= <-].
Qed.

Lemma apply_record_exact (r : BlockRecord.t) latest s :
  well_timed r ->
  apply_record r latest s = Ret (later_timestamp latest r) (index_record s r).
Proof.
  unfold well_timed, apply_record, add_block_record, later_timestamp, index_record.
  unfold_monad. intros Hwt.
  destruct (BlockRecord.is_transaction_block r); [|done].
  destruct (BlockRecord.timestamp r) as [t|]; [|by destruct Hwt].
  by destruct (latest <? t).
Qed.

Lemma apply_records_exact (records : list BlockRecord.t) latest s :
  Forall well_timed records ->
  for_each records apply_record latest s
  = Ret (latest_after records latest) (records_applied records s).
Proof.
  intros Hwt. revert latest s.
  induction Hwt as [|r records Hr _ IH]; intros latest s; simpl; [done|].
  unfold bind. rewrite (apply_record_exact _ _ _ Hr). apply IH.
Qed.

(** Whatever way the loop over the records ends, no key has left either
    index. *)
Lemma apply_records_grow (records : list BlockRecord.t) latest s s' :
  final_state (for_each records apply_record latest s) = Some s' ->
  (forall h, is_Some (_block_records s !! h) -> is_Some (_block_records s' !! h)) /\
  (forall k, is_Some (_height_to_hash s !! k) -> is_Some (_height_to_hash s' !! k)).
Proof.
  revert latest s. induction records as [|r records IH]; intros latest s; simpl.
  { by intros [= <-]. }
  unfold bind. destruct (apply_record r latest s) as [t s1|e s1|] eqn:Hr;
    simpl; [| |done].
  - assert (Hs1 : s1 = index_record s r) by (apply (apply_record_final r latest s);
      by rewrite Hr).
    intros Hfin. destruct (IH _ _ Hfin) as [Hb Hh]. split.
    + intros h Hin. apply Hb. rewrite Hs1. simpl. apply lookup_insert_is_Some.
      destruct (decide (BlockRecord.header_hash r = h)); [by left|by right].
    + intros k Hin. apply Hh. rewrite Hs1. simpl. apply lookup_insert_is_Some.
      destruct (decide (BlockRecord.height r = k)); [by left|by right].
  - intros [= <-].
    assert (Hs1 : s1 = index_record s r) by (apply (apply_record_final r latest s);
      by rewrite Hr).
    rewrite Hs1. simpl. split.
    + intros h Hin. apply lookup_insert_is_Some.
      destruct (decide (BlockRecord.header_hash r = h)); [by left|by right].
    + intros k Hin. apply lookup_insert_is_Some.
      destruct (decide (BlockRecord.height r = k)); [by left|by right].
Qed.

Lemma records_applied_snoc records r s :
  records_applied (records ++ [r]) s = index_record (records_applied records s) r.
Proof. unfold records_applied. by rewrite foldl_snoc. Qed.

Lemma records_applied_frame records s :
  constants (records_applied records s) = constants s /\
  _basic_store (records_applied records s) = _basic_store s /\
  synced_weight_proof (records_applied records s) = synced_weight_proof s /\
  _peak (records_applied records s) = _peak s /\
  _latest_timestamp (records_applied records s) = _latest_timestamp s.
Proof.
  induction records as [|r records IH] using rev_ind; [done|].
  rewrite records_applied_snoc. simpl. exact IH.
Qed.

Lemma last_filter_snoc {A} (f : A -> bool) (l : list A) (x : A) :
  last (List.filter f (l ++ [x])) = if f x then Some x else last (List.filter f l).
Proof.
  rewrite List.filter_app. simpl. destruct (f x).
  - by rewrite last_snoc.
  - by rewrite app_nil_r.
Qed.

(** The indexes after the loop: the last record at a height, and the last
    record with a hash, win; other keys keep what they had. *)
Lemma records_applied_height records s k :
  _height_to_hash (records_applied records s) !! k =
  match last_at_height k records with
  | Some r => Some (EntryHash (BlockRecord.header_hash r))
  | None => _height_to_hash s !! k
  end.
Proof.
  unfold last_at_height. induction records as [|r records IH] using rev_ind; [done|].
  rewrite records_applied_snoc, last_filter_snoc. simpl.
  destruct (N.eqb_spec (BlockRecord.height r) k) as [->|Hne].
  - by rewrite lookup_insert_eq.
  - by rewrite lookup_insert_ne.
Qed.

Lemma records_applied_hash records s h :
  _block_records (records_applied records s) !! h =
  match last_with_hash h records with
  | Some r => Some r
  | None => _block_records s !! h
  end.
Proof.
  unfold last_with_hash. induction records as [|r records IH] using rev_ind; [done|].
  rewrite records_applied_snoc, last_filter_snoc. simpl.
  destruct (N.eqb_spec (BlockRecord.header_hash r) h) as [->|Hne].
  - by rewrite lookup_insert_eq.
  - by rewrite lookup_insert_ne.
Qed.

(** The running timestamp after the loop is the largest of the start value
    and the timestamps of the transaction blocks among the records. *)
Lemma latest_after_max records latest :
  latest <= latest_after records latest /\
  (forall r t, r ∈ records -> BlockRecord.is_transaction_block r = true ->
               BlockRecord.timestamp r = Some t -> t <= latest_after records latest) /\
  (latest_after records latest = latest \/
   exists r, r ∈ records /\ BlockRecord.is_transaction_block r = true /\
             BlockRecord.timestamp r = Some (latest_after records latest)).
Proof.
  unfold latest_after. induction records as [|r records IH] using rev_ind.
  { simpl. split; [lia|]. split; [|by left]. intros r t Hr. by apply elem_of_nil in Hr. }
  rewrite foldl_snoc. destruct IH as (Hle & Hall & Hone).
  set (prev := foldl later_timestamp latest records) in *.
  assert (Hstep : prev <= later_timestamp prev r).
  { unfold later_timestamp. destruct (BlockRecord.is_transaction_block r); [|lia].
    destruct (BlockRecord.timestamp r) as [t|]; [|lia].
    destruct (N.ltb_spec prev t); lia. }
  split; [lia|]. split.
  - intros r' t Hr' Htx Hts. apply elem_of_app in Hr' as [Hr'|Hr'].
    + specialize (Hall r' t Hr' Htx Hts). lia.
    + apply list_elem_of_singleton in Hr' as ->. unfold later_timestamp.
      rewrite Htx, Hts. destruct (N.ltb_spec prev t); lia.
  - unfold later_timestamp.
    destruct (BlockRecord.is_transaction_block r) eqn:Htx.
    + destruct (BlockRecord.timestamp r) as [t|] eqn:Hts.
      * destruct (N.ltb_spec prev t).
        -- right. exists r. split; [apply elem_of_app; right; by left|done].
        -- destruct Hone as [->|(r' & Hr' & ?)]; [by left|].
           right. exists r'. split; [apply elem_of_app; by left|done].
      * destruct Hone as [->|(r' & Hr' & ?)]; [by left|].
        right. exists r'. split; [apply elem_of_app; by left|done].
    + destruct Hone as [->|(r' & Hr' & ?)]; [by left|].
      right. exists r'. split; [apply elem_of_app; by left|done].
Qed.

(** [ingest] with the records it uses, all of them well timed. *)
Lemma ingest_exact weight_proof records used s :
  records_used weight_proof records used ->
  Forall well_timed used ->
  ingest weight_proof records s =
  (tail <- last_item (WeightProof.recent_chain_data weight_proof) ;;
   set_peak_block tail (Some (latest_after used (_latest_timestamp s))))%method
    (records_applied used s).
Proof.
  intros Hused Hwt. unfold ingest. unfold bind at 1, get_self. unfold bind at 1.
  assert (Hrecs : match records with
                  | Some records => ret records
                  | None =>
                      let '(success, records) := validate_weight_proof weight_proof in
                      if success then ret records else raise AssertionError
                  end s = Ret used s).
  { destruct Hused as [->|[-> Hv]]; [done|]. by rewrite Hv. }
  rewrite Hrecs. unfold bind at 1. by rewrite (apply_records_exact _ _ _ Hwt).
Qed.

End MoreNewWeightProof.

(** The instance [new_weight_proof] returns when the guard is passed, the
    records it uses are well timed and the proof has a tail. *)
Lemma new_weight_proof_exact `{Collaborators} (weight_proof : WeightProof.t)
    (records : option (list BlockRecord.t)) (used : list BlockRecord.t)
    (tail : HeaderBlock.t) (s : WalletBlockchain) :
  guard_passed weight_proof s ->
  records_used weight_proof records used ->
  Forall well_timed used ->
  last (WeightProof.recent_chain_data weight_proof) = Some tail ->
  new_weight_proof weight_proof records s =
  Ret tt
    (mkWalletBlockchain (constants s)
       (set_object
          (set_object (_basic_store s) "SYNCED_WEIGHT_PROOF"
             (StoredWeightProof weight_proof))
          "PEAK_BLOCK" (StoredHeaderBlock tail))
       (Some weight_proof) (Some tail)
       (_height_to_hash (records_applied used s))
       (_block_records (records_applied used s))
       (latest_after used (_latest_timestamp s))).
Proof.
  intros Hg Hused Hwt Htail.
  rewrite (new_weight_proof_fresh _ _ _ Hg), (ingest_exact _ _ used) by done.
  unfold last_item. rewrite Htail. unfold set_peak_block. unfold_monad.
  pose proof (records_applied_frame used (proof_stored weight_proof s))
    as (Hc & Hst & Hwp & _ & _).
  unfold with_latest_timestamp, with_peak, with_store. simpl.
  rewrite Hc, Hst, Hwp. simpl. f_equal. f_equal.
  - clear. induction used as [|r used IH] using rev_ind; [done|].
    rewrite !records_applied_snoc. simpl. by rewrite IH.
  - clear. induction used as [|r used IH] using rev_ind; [done|].
    rewrite !records_applied_snoc. simpl. by rewrite IH.
Qed.

(** X12.  A weight proof that passes the guard, with records that are
    supplied or that the verifier returns with a successful verdict (a
    record flagged as transaction block having a timestamp): the call
    returns, the proof and its tail are in memory and persisted, and the
    two indexes answer for the records.  At a height that records name,
    [height_to_hash] gives the header hash of the last such record, and at a
    hash that records carry, [block_record] gives the last such record;
    every other height and hash answers as before, so nothing of an earlier
    chain is removed.  Supplied records are used without asking the
    verifier. *)
Theorem new_weight_proof_adopts `{Collaborators} (weight_proof : WeightProof.t)
    (records : option (list BlockRecord.t)) (used : list BlockRecord.t)
    (tail : HeaderBlock.t) (s : WalletBlockchain) :
  guard_passed weight_proof s ->
  records_used weight_proof records used ->
  Forall well_timed used ->
  last (WeightProof.recent_chain_data weight_proof) = Some tail ->
  exists s',
    new_weight_proof weight_proof records s = Ret tt s' /\
    get_peak_block s' = Some tail /\
    get_header_block (_basic_store s') "PEAK_BLOCK" = Some tail /\
    synced_weight_proof s' = Some weight_proof /\
    get_weight_proof (_basic_store s') "SYNCED_WEIGHT_PROOF" = Some weight_proof /\
    (forall k,
       _height_to_hash s' !! k =
       match last_at_height k used with
       | Some r => Some (EntryHash (BlockRecord.header_hash r))
       | None => _height_to_hash s !! k
       end) /\
    (forall h,
       try_block_record s' h =
       match last_with_hash h used with
       | Some r => Some r
       | None => try_block_record s h
       end).
Proof.
  intros Hg Hused Hwt Htail. eexists.
  split; [by apply (new_weight_proof_exact _ _ used tail)|]. simpl.
  split; [done|].
  split; [unfold get_header_block, set_object; by rewrite lookup_insert_eq|].
  split; [done|].
  split.
  { unfold get_weight_proof, set_object.
    rewrite lookup_insert_ne by done. by rewrite lookup_insert_eq. }
  split.
  - intros k. apply records_applied_height.
  - intros h. rewrite !try_block_record_lookup. simpl. apply records_applied_hash.
Qed.

(** X13.  Under the same conditions the latest timestamp afterwards is the
    maximum of the previous latest timestamp and the timestamps of the
    transaction blocks among the records: it is at least each of them and
    is one of them. *)
Theorem new_weight_proof_latest_timestamp `{Collaborators}
    (weight_proof : WeightProof.t) (records : option (list BlockRecord.t))
    (used : list BlockRecord.t) (tail : HeaderBlock.t) (s : WalletBlockchain) :
  guard_passed weight_proof s ->
  records_used weight_proof records used ->
  Forall well_timed used ->
  last (WeightProof.recent_chain_data weight_proof) = Some tail ->
  exists s',
    new_weight_proof weight_proof records s = Ret tt s' /\
    get_latest_timestamp s <= get_latest_timestamp s' /\
    (forall r t, r ∈ used -> BlockRecord.is_transaction_block r = true ->
                 BlockRecord.timestamp r = Some t -> t <= get_latest_timestamp s') /\
    (get_latest_timestamp s' = get_latest_timestamp s \/
     exists r, r ∈ used /\ BlockRecord.is_transaction_block r = true /\
               BlockRecord.timestamp r = Some (get_latest_timestamp s')).
Proof.
  intros Hg Hused Hwt Htail. eexists.
  split; [by apply (new_weight_proof_exact _ _ used tail)|].
  unfold get_latest_timestamp. simpl. apply latest_after_max.
Qed.

(** Whatever way [new_weight_proof] ends, the indexes have only grown. *)
Lemma new_weight_proof_grows `{Collaborators}
    (weight_proof : WeightProof.t) (records : option (list BlockRecord.t))
    (s s' : WalletBlockchain) :
  final_state (new_weight_proof weight_proof records s) = Some s' ->
  (forall k, is_Some (_height_to_hash s !! k) -> is_Some (_height_to_hash s' !! k)) /\
  (forall h, is_Some (_block_records s !! h) -> is_Some (_block_records s' !! h)) /\
  (is_Some (_peak s) -> is_Some (_peak s')).
Proof.
  intros Hfin.
  destruct (new_weight_proof_guard weight_proof s) as [Hst|[Hg|[Hp He]]].
  - rewrite (new_weight_proof_stale _ records _ Hst) in Hfin. by inversion Hfin; subst.
  - rewrite (new_weight_proof_fresh _ records _ Hg) in Hfin.
    revert Hfin. unfold ingest. unfold bind at 1, get_self. unfold bind at 1.
    assert (Hrest : forall recs,
      final_state
        ((latest_timestamp <- for_each recs apply_record
                                (_latest_timestamp (proof_stored weight_proof s)) ;;
          tail <- last_item (WeightProof.recent_chain_data weight_proof) ;;
          set_peak_block tail (Some latest_timestamp))%method
           (proof_stored weight_proof s)) = Some s' ->
      (forall k, is_Some (_height_to_hash s !! k) -> is_Some (_height_to_hash s' !! k)) /\
      (forall h, is_Some (_block_records s !! h) -> is_Some (_block_records s' !! h)) /\
      (is_Some (_peak s) -> is_Some (_peak s'))).
    { intros recs. unfold bind at 1.
      pose proof (apply_records_grow recs
                    (_latest_timestamp (proof_stored weight_proof s))
                    (proof_stored weight_proof s)) as Hgrow.
      pose proof (apply_records_spec recs
                    (_latest_timestamp (proof_stored weight_proof s))
                    (proof_stored weight_proof s)) as Hspec.
      destruct (for_each recs apply_record _ _) as [t s1|e s1|]; [| |done].
      - destruct (Hgrow s1 eq_refl) as [Hb Hh]. destruct Hspec as [_ Hf].
        unfold last_item, bind at 1.
        destruct (last (WeightProof.recent_chain_data weight_proof)) as [tail|].
        + unfold set_peak_block. unfold_monad. intros [= <-]. simpl. eauto.
        + intros [= <-]. split; [done|]. split; [done|].
          unfold only_indexes in Hf. by rewrite Hf.
      - destruct (Hgrow s1 eq_refl) as [Hb Hh]. destruct Hspec as [_ Hf].
        intros [= <-]. split; [done|]. split; [done|].
        unfold only_indexes in Hf. by rewrite Hf. }
    destruct records as [recs|]; [apply Hrest|].
    destruct (validate_weight_proof weight_proof) as [[] recs]; [apply Hrest|].
    by intros [= <-].
  - rewrite (new_weight_proof_empty _ records _ Hp He) in Hfin. by inversion Hfin; subst.
Qed.

(** X14.  [new_weight_proof] never rolls back: however the call ends,
    every height that was in the height index and every hash that was in
    the block-record index is still there, also heights above the new
    tail, and a peak in memory is not lost. *)
Theorem new_weight_proof_never_rolls_back `{Collaborators}
    (weight_proof : WeightProof.t) (records : option (list BlockRecord.t))
    (s s' : WalletBlockchain) :
  final_state (new_weight_proof weight_proof records s) = Some s' ->
  (forall k, contains_height s k = true -> contains_height s' k = true) /\
  (forall h, contains_block s h = true -> contains_block s' h = true) /\
  (is_Some (_peak s) -> is_Some (_peak s')).
Proof.
  intros Hfin. destruct (new_weight_proof_grows _ _ _ _ Hfin) as (Hh & Hb & Hp).
  split; [|split; [|done]].
  - intros k. unfold contains_height. rewrite !bool_decide_eq_true. apply Hh.
  - intros h. rewrite !contains_block_true. apply Hb.
Qed.

(** X15.  Block records are never removed: along any sequence of
    [receive_block] and [new_weight_proof] calls, however each of them
    ends, a hash that [contains_block] accepts stays accepted. *)
Theorem block_records_never_removed `{Collaborators} (s s' : WalletBlockchain)
    (h : bytes32) :
  rtc mutated s s' ->
  contains_block s h = true ->
  contains_block s' h = true.
Proof.
  intros Hrun. induction Hrun as [s|s1 s2 s3 Hstep _ IH]; [done|].
  intros Hin. apply IH. clear IH.
  destruct Hstep as [fuel block s1 s2 Hfin|weight_proof records s1 s2 Hfin].
  - destruct (receive_block_cases_accepted fuel block s1)
      as [(r & e & Heq & _)|(ri & _ & Heq)]; rewrite Heq in Hfin.
    + by inversion Hfin; subst.
    + destruct (adopt_final _ _ _ _ _ Hfin) as (_ & _ & Hrec & _).
      apply contains_block_true. rewrite Hrec. apply lookup_insert_is_Some.
      apply contains_block_true in Hin.
      destruct (decide (BlockRecord.header_hash
                          (block_to_block_record (constants s1) s1 ri block) = h));
        [by left|by right].
  - apply contains_block_true. apply (new_weight_proof_grows _ _ _ _ Hfin).
    by apply contains_block_true.
Qed.


(** X17.  The persisted peak follows the peak in memory: if the store
    holds the peak of the instance, it still does after every call of
    [receive_block] that returns and after every call of [new_weight_proof],
    and it does on the instance that [create] returns.  Only a call of
    [receive_block] that raises can leave a peak in memory with no peak
    persisted. *)
Theorem peak_stays_persisted `{Collaborators} :
  (forall fuel block s r s',
     peak_persisted s -> receive_block fuel block s = Ret r s' -> peak_persisted s') /\
  (forall weight_proof records s s',
     peak_persisted s ->
     final_state (new_weight_proof weight_proof records s) = Some s' ->
     peak_persisted s') /\
  (forall store c self, create store c = Ret self self -> peak_persisted self) /\
  (forall fuel block s e s',
     peak_persisted s -> receive_block fuel block s = Raise e s' ->
     peak_persisted s' \/
     (is_Some (_peak s') /\ get_header_block (_basic_store s') "PEAK_BLOCK" = None)).
Proof.
  assert (Hnwp : forall weight_proof records s s',
     peak_persisted s ->
     final_state (new_weight_proof weight_proof records s) = Some s' ->
     peak_persisted s').
  { intros weight_proof records s s' Hinv Hfin.
    destruct (new_weight_proof_guard weight_proof s) as [Hst|[Hg|[Hp He]]].
    - rewrite (new_weight_proof_stale _ records _ Hst) in Hfin. by inversion Hfin; subst.
    - rewrite (new_weight_proof_fresh _ records _ Hg) in Hfin.
      pose proof (ingest_spec weight_proof records (proof_stored weight_proof s)) as Hi.
      destruct (ingest _ _ _) as [[] s1|e s1|]; simpl in Hfin; [| |done];
        inversion Hfin; subst.
      + destruct Hi as (tail & _ & -> & _). intros p. simpl. intros [= <-].
        unfold get_header_block, set_object. by rewrite lookup_insert_eq.
      + unfold only_indexes in Hi. rewrite Hi. intros p. simpl. intros Hp.
        specialize (Hinv p Hp). unfold get_header_block, set_object in *.
        by rewrite lookup_insert_ne.
    - rewrite (new_weight_proof_empty _ records _ Hp He) in Hfin.
      by inversion Hfin; subst. }
  split; [|split; [exact Hnwp|split]].
  - intros fuel block s r s' Hinv Hrun.
    destruct (receive_block_cases_accepted fuel block s)
      as [(r' & e & Heq & _)|(ri & _ & Heq)]; rewrite Heq in Hrun.
    + by inversion Hrun; subst.
    + destruct (_peak s) as [p|] eqn:Hp.
      * destruct (N.le_gt_cases
                    (BlockRecord.weight (block_to_block_record (constants s) s ri block))
                    (HeaderBlock.weight p)) as [Hle|Hgt].
        -- rewrite (adopt_not_heavier _ _ _ _ p Hp Hle) in Hrun. inversion Hrun; subst.
           intros p'. simpl. apply Hinv.
        -- pose proof (adopt_heavier fuel block _ s p Hp Hgt) as Hh. simpl in Hh.
           rewrite Hrun in Hh. destruct Hh as (_ & -> & _).
           intros p'. simpl. intros [= <-].
           unfold get_header_block, set_object. by rewrite lookup_insert_eq.
      * rewrite (adopt_no_peak _ _ _ _ Hp) in Hrun. inversion Hrun; subst.
        intros p'. simpl. intros [= <-].
        unfold get_header_block, set_object. by rewrite lookup_insert_eq.
  - intros store c self Hrun. unfold create in Hrun.
    set (s0 := with_peak _ _) in Hrun.
    assert (H0 : peak_persisted s0).
    { intros p. subst s0. unfold get_peak_block. simpl. done. }
    destruct (get_weight_proof store "SYNCED_WEIGHT_PROOF") as [wp|].
    + unfold bind at 1 in Hrun.
      destruct (new_weight_proof wp None s0) as [[] s1|e s1|] eqn:Hn; [|done..].
      unfold get_self in Hrun. inversion Hrun; subst.
      apply (Hnwp wp None s0); [done|]. by rewrite Hn.
    + unfold_monad. by inversion Hrun; subst.
  - intros fuel block s e s' Hinv Hrun.
    destruct (receive_block_cases_accepted fuel block s)
      as [(r' & e' & Heq & _)|(ri & _ & Heq)]; rewrite Heq in Hrun; [done|].
    destruct (adopt_raise _ _ _ _ _ _ Hrun) as (_ & Hpk & _ & p & Hp & Hgt).
    pose proof (adopt_heavier fuel block _ s p Hp Hgt) as Hh. simpl in Hh.
    rewrite Hrun in Hh. destruct Hh as (_ & [Hs'|Hs']).
    + left. rewrite Hs'. intros p'. simpl. apply Hinv.
    + right. split; [rewrite Hpk, Hp; eauto|]. rewrite Hs'. simpl.
      unfold get_header_block, remove_object. by rewrite lookup_delete_eq.
Qed.

(** X18.  [create] on a store that holds a weight proof but no peak block
    heavier than or as heavy as the proof's tail does re-ingest the proof
    through the verifier.  When the verifier rejects the proof, [create]
    raises [AssertionError].  When it accepts, [create] returns an instance
    whose peak is the proof's tail, whose indexes are those of the
    verifier's records on an empty instance, and whose latest timestamp is
    the largest timestamp of a transaction block among them. *)
Theorem create_reingests `{Collaborators} (store : KeyValStore)
    (c : ConsensusConstants) (weight_proof : WeightProof.t) :
  let start := mkWalletBlockchain c store (Some weight_proof)
                 (get_header_block store "PEAK_BLOCK") ∅ ∅ 0 in
  get_weight_proof store "SYNCED_WEIGHT_PROOF" = Some weight_proof ->
  guard_passed weight_proof start ->
  ((validate_weight_proof weight_proof).1 = false ->
   create store c = Raise AssertionError (proof_stored weight_proof start)) /\
  (forall used tail,
     validate_weight_proof weight_proof = (true, used) ->
     Forall well_timed used ->
     last (WeightProof.recent_chain_data weight_proof) = Some tail ->
     exists self,
       create store c = Ret self self /\
       _peak self = Some tail /\
       _basic_store self = set_object store "PEAK_BLOCK" (StoredHeaderBlock tail) /\
       _height_to_hash self = _height_to_hash (records_applied used start) /\
       _block_records self = _block_records (records_applied used start) /\
       get_latest_timestamp self = latest_after used 0).
Proof.
  intros start Hwp Hg.
  assert (Hcreate : create store c
                    = (new_weight_proof weight_proof None ;; get_self)%method start).
  { unfold create. rewrite Hwp. reflexivity. }
  assert (Hstore : set_object store "SYNCED_WEIGHT_PROOF" (StoredWeightProof weight_proof)
                   = store).
  { unfold set_object. apply insert_id. unfold get_weight_proof in Hwp.
    destruct (store !! "SYNCED_WEIGHT_PROOF") as [[wp|b]|]; by inversion Hwp. }
  split.
  - intros Hbad. rewrite Hcreate. unfold bind at 1.
    rewrite (new_weight_proof_fresh _ None _ Hg). unfold ingest. unfold_monad.
    destruct (validate_weight_proof weight_proof) as [success recs].
    simpl in Hbad. by subst success.
  - intros used tail Hv Hwt Htail. rewrite Hcreate. unfold bind at 1.
    rewrite (new_weight_proof_exact weight_proof None used tail start Hg);
      [|by right|done|done].
    unfold get_self. eexists. split; [reflexivity|]. simpl.
    split; [done|]. split; [by rewrite Hstore|]. done.
Qed.

(** X19.  The peak survives a restart, the latest timestamp does not.
    After [set_peak_block], [get_peak_block] and [get_peak_height] answer
    with the block, and [create] on the store it leaves (no weight proof
    persisted) returns an instance with that block as peak, but with latest
    timestamp [uint64(0)] and empty indexes. *)
Theorem peak_survives_restart `{Collaborators} (block : HeaderBlock.t)
    (timestamp : option uint64) (s : WalletBlockchain) (c : ConsensusConstants) :
  get_weight_proof (_basic_store s) "SYNCED_WEIGHT_PROOF" = None ->
  exists s' self,
    set_peak_block block timestamp s = Ret tt s' /\
    get_peak_block s' = Some block /\
    get_peak_height s' = HeaderBlock.height block /\
    create (_basic_store s') c = Ret self self /\
    get_peak_block self = Some block /\
    get_peak_height self = HeaderBlock.height block /\
    get_latest_timestamp self = 0 /\
    _height_to_hash self = ∅ /\ _block_records self = ∅.
Proof.
  intros Hwp.
  assert (Hset : exists s', set_peak_block block timestamp s = Ret tt s' /\
                   _peak s' = Some block /\
                   _basic_store s'
                   = set_object (_basic_store s) "PEAK_BLOCK" (StoredHeaderBlock block)).
  { unfold set_peak_block. unfold_monad. destruct timestamp as [t|]; simpl; [eauto|].
    destruct (HeaderBlock.foliage_transaction_block block); eauto. }
  destruct Hset as (s' & Hrun & Hpk & Hst).
  exists s'. eexists. split; [exact Hrun|].
  split; [unfold get_peak_block; by rewrite Hpk|].
  split; [unfold get_peak_height; by rewrite Hpk|].
  assert (Hwp' : get_weight_proof (_basic_store s') "SYNCED_WEIGHT_PROOF" = None).
  { rewrite Hst. unfold get_weight_proof, set_object in *.
    by rewrite lookup_insert_ne. }
  assert (Hpeak : get_header_block (_basic_store s') "PEAK_BLOCK" = Some block).
  { rewrite Hst. unfold get_header_block, set_object. by rewrite lookup_insert_eq. }
  unfold create. rewrite Hwp'. unfold get_peak_block at 1. simpl. rewrite Hpeak.
  unfold_monad. split; [reflexivity|]. by simpl.
Qed.

(** X20.  The result codes of [receive_block] and their error codes.
    [ALREADY_HAVE_BLOCK], [NEW_PEAK] and [ADDED_AS_ORPHAN] come without an
    error code, the last two only for an accepted block.
    [DISCONNECTED_BLOCK] comes with [INVALID_PREV_BLOCK_HASH], only above
    height 0 and only when the parent is not in the index.  [INVALID_BLOCK]
    comes with the code of the validator's error when there is one, also
    when the validator returned required iterations along with it, and with
    [INVALID_POSPACE] when there is neither error nor required iterations. *)
Theorem receive_block_result_codes `{Collaborators} (fuel : nat)
    (block : HeaderBlock.t) (s s' : WalletBlockchain)
    (r : ReceiveBlockResult) (e : option Err) :
  receive_block fuel block s = Ret (r, e) s' ->
  match r with
  | ALREADY_HAVE_BLOCK =>
      e = None /\ contains_block s (HeaderBlock.header_hash block) = true
  | DISCONNECTED_BLOCK =>
      e = Some INVALID_PREV_BLOCK_HASH /\
      HeaderBlock.height block <> 0 /\
      try_block_record s (HeaderBlock.prev_header_hash block) = None
  | INVALID_BLOCK =>
      exists sub_slot_iters difficulty,
        validation_params s block = Some (sub_slot_iters, difficulty) /\
        ((exists required_iters error,
            validate_finished_header_block (constants s) s block difficulty sub_slot_iters
            = (required_iters, Some error) /\ e = Some (code error)) \/
         (validate_finished_header_block (constants s) s block difficulty sub_slot_iters
          = (None, None) /\ e = Some INVALID_POSPACE))
  | NEW_PEAK | ADDED_AS_ORPHAN =>
      e = None /\ exists required_iters, accepted s block required_iters
  end.
Proof.
  rewrite receive_block_unfold.
  destruct (contains_block s (HeaderBlock.header_hash block)) eqn:Hnew.
  { by intros [= <- <- <-]. }
  destruct (validation_params s block) as [[ssi d]|] eqn:Hp.
  - destruct (validate_finished_header_block (constants s) s block d ssi)
      as [[ri|] [err|]] eqn:Hv.
    + intros [= <- <- <-]. exists ssi, d. split; [done|]. left. eauto.
    + intros Hrun.
      assert (Hacc : accepted s block ri) by (split; [done|]; eauto).
      apply adopt_ret in Hrun as (_ & [(Hr & _)|(Hr & _)]); inversion Hr; subst; eauto.
    + intros [= <- <- <-]. exists ssi, d. split; [done|]. left. eauto.
    + intros [= <- <- <-]. exists ssi, d. split; [done|]. by right.
  - intros [= <- <- <-]. split; [done|]. revert Hp. unfold validation_params.
    destruct (N.eqb_spec (HeaderBlock.height block) 0); [done|].
    by destruct (try_block_record s (HeaderBlock.prev_header_hash block)).
Qed.

(** ** The properties on concrete chains *)

Import Scenario.

(** The scenarios of the specification: the genesis block and its child
    become the peak in turn, and a lighter second block at height 1 is kept
    as an orphan while the peak stays. *)
Example genesis_child_orphan :
  receive_all 8 [chain_a 0; chain_a 1; header 160 100 1 5 None] fresh
  = ([(NEW_PEAK, None); (NEW_PEAK, None); (ADDED_AS_ORPHAN, None)],
     Some (record_added (record_of_header (header 160 100 1 5 None)) at_child)) /\
  get_peak_height at_child = 1 /\
  HeaderBlock.header_hash <$> _peak at_child = Some 101.
Proof. split; [|split]; vm_compute; reflexivity. Qed.

(** A weight proof offered to a fresh instance: the tail becomes the peak,
    the height index holds the 11 heights of the records and the latest
    timestamp is the largest timestamp among them. *)
Example weight_proof_on_fresh_instance :
  new_weight_proof proof_a (Some records_a) fresh = Ret tt at_a /\
  _peak at_a = Some (chain_a 10) /\
  size (_height_to_hash at_a) = 11%nat /\
  get_latest_timestamp at_a = 1010.
Proof. split; [|split; [|split]]; vm_compute; reflexivity. Qed.

Lemma get_peak_height_without_peak_witness :
  _peak fresh = None /\
  _peak at_genesis = Some (chain_a 0) /\
  get_peak_height fresh = 0 /\
  get_peak_height fresh = get_peak_height at_genesis.
Proof.
  split; [reflexivity|]. split; [vm_compute; reflexivity|].
  apply (get_peak_height_without_peak fresh at_genesis
           (chain_a 0)); vm_compute; reflexivity.
Defined.

Lemma receive_block_failure_atomic_witness :
  receive_block 8 stray at_genesis
  = Ret (DISCONNECTED_BLOCK, Some INVALID_PREV_BLOCK_HASH) at_genesis /\
  receive_block 8 rejected at_genesis
  = Ret (INVALID_BLOCK, Some (OTHER_ERR 7)) at_genesis /\
  receive_block 8 spaceless at_genesis
  = Ret (INVALID_BLOCK, Some INVALID_POSPACE) at_genesis /\
  at_genesis = at_genesis /\
  contains_block at_genesis (HeaderBlock.header_hash stray) = false.
Proof.
  assert (Hrun : receive_block 8 stray at_genesis
           = Ret (DISCONNECTED_BLOCK, Some INVALID_PREV_BLOCK_HASH) at_genesis)
    by (vm_compute; reflexivity).
  split; [exact Hrun|]. split; [vm_compute; reflexivity|].
  split; [vm_compute; reflexivity|].
  exact (proj1 (receive_block_failure_atomic 8 stray at_genesis at_genesis
                  DISCONNECTED_BLOCK (Some INVALID_PREV_BLOCK_HASH) Hrun)
           (or_introl eq_refl)).
Defined.

Lemma new_weight_proof_stale_noop_witness :
  get_peak_block at_a = Some (chain_a 10) /\
  new_weight_proof proof_bad None at_a = Ret tt at_a.
Proof.
  split; [vm_compute; reflexivity|].
  apply (new_weight_proof_stale_noop proof_bad None at_a
           (chain_a 10) (chain_a 10));
    vm_compute; first [reflexivity | discriminate].
Defined.

Lemma new_weight_proof_persists_first_witness :
  guard_passed proof_bad fresh /\
  new_weight_proof proof_bad None fresh
  = Raise AssertionError (proof_stored proof_bad fresh) /\
  get_weight_proof (_basic_store (proof_stored proof_bad fresh))
    "SYNCED_WEIGHT_PROOF" = Some proof_bad.
Proof.
  assert (Hg : guard_passed proof_bad fresh) by (left; reflexivity).
  split; [exact Hg|].
  destruct (new_weight_proof_persists_first proof_bad fresh Hg)
    as (Hall & _ & Hbad).
  assert (Hrun := Hbad eq_refl). split; [exact Hrun|].
  apply (Hall None). by rewrite Hrun.
Defined.

(** The collaborators of the scenario meet the two assumptions made on
    [block_to_block_record]. *)
Lemma scenario_record_hash c s required_iters b :
  BlockRecord.header_hash (block_to_block_record c s required_iters b)
  = HeaderBlock.header_hash b.
Proof. reflexivity. Qed.

Lemma scenario_record_weight c s required_iters b :
  BlockRecord.weight (block_to_block_record c s required_iters b)
  = HeaderBlock.weight b.
Proof. reflexivity. Qed.

(** C6, as stated, fails: a block whose parent is unknown is answered with
    [DISCONNECTED_BLOCK], and the second call with the same block is
    answered with [DISCONNECTED_BLOCK] again, not with [ALREADY_HAVE_BLOCK]. *)
Lemma receive_block_twice_disconnected :
  receive_block 8 stray fresh
  = Ret (DISCONNECTED_BLOCK, Some INVALID_PREV_BLOCK_HASH) fresh /\
  receive_block 8 stray (after (receive_block 8 stray fresh))
  = Ret (DISCONNECTED_BLOCK, Some INVALID_PREV_BLOCK_HASH) fresh /\
  receive_block 8 stray (after (receive_block 8 stray fresh))
  <> Ret (ALREADY_HAVE_BLOCK, None) (after (receive_block 8 stray fresh)).
Proof.
  split; [vm_compute; reflexivity|]. split; [vm_compute; reflexivity|].
  vm_compute. discriminate.
Qed.

Lemma receive_block_twice_witness :
  receive_block 8 (chain_a 1) at_genesis = Ret (NEW_PEAK, None) at_child /\
  receive_block 8 (chain_a 1) at_child = Ret (ALREADY_HAVE_BLOCK, None) at_child.
Proof.
  assert (Hrun : receive_block 8 (chain_a 1) at_genesis = Ret (NEW_PEAK, None) at_child)
    by (vm_compute; reflexivity).
  split; [exact Hrun|].
  exact (proj1 (receive_block_twice scenario_record_hash 8 8 (chain_a 1)
                  at_genesis at_child NEW_PEAK None Hrun) (or_introl eq_refl)).
Defined.

Lemma receive_block_weight_monotone_witness :
  peak_weight_le at_genesis at_child /\
  exists r e s',
    receive_block 8 rival at_child = Ret (r, e) s' /\
    r <> NEW_PEAK /\ _peak s' = Some (chain_a 1) /\ (r = ADDED_AS_ORPHAN \/ s' = at_child).
Proof.
  destruct (receive_block_weight_monotone scenario_record_weight)
    as (Hseq & _ & Htie).
  split.
  - apply Hseq. apply rtc_once. apply (received_block 8%nat (chain_a 1)).
    vm_compute. reflexivity.
  - apply (Htie 8%nat rival at_child (chain_a 1)); vm_compute; reflexivity.
Defined.

Lemma latest_timestamp_monotone_witness :
  timestamp_initial fresh /\
  get_latest_timestamp fresh <= get_latest_timestamp at_child /\
  get_latest_timestamp at_a <= get_latest_timestamp at_b.
Proof.
  assert (Hinit : timestamp_initial fresh) by (intros _; reflexivity).
  destruct latest_timestamp_monotone as (_ & Hblock & _ & _ & Hseq).
  split; [exact Hinit|]. split.
  - apply Hseq; [exact Hinit|].
    apply (rtc_l _ _ at_genesis).
    + apply (mutated_receive_block 8%nat (chain_a 0)). vm_compute. reflexivity.
    + apply rtc_once. apply (mutated_receive_block 8%nat (chain_a 1)).
      vm_compute. reflexivity.
  - transitivity (get_latest_timestamp at_b11); [vm_compute; discriminate|].
    apply (Hblock 16%nat (chain_b 12) at_b11 at_b (chain_a 10)); vm_compute; reflexivity.
Defined.

Lemma new_peak_breaks_height_index_witness :
  _peak at_genesis = Some (chain_a 0) /\
  receive_block 8 (chain_a 1) at_genesis = Ret (NEW_PEAK, None) at_child /\
  height_to_hash 0 at_genesis = Ret (EntryHash 100) at_genesis /\
  height_to_hash 0 at_child = Raise KeyError at_child /\
  exists r, height_to_hash 1 at_child = Ret (EntryRecord r) at_child.
Proof.
  assert (Hpk : _peak at_genesis = Some (chain_a 0)) by (vm_compute; reflexivity).
  assert (Hrun : receive_block 8 (chain_a 1) at_genesis = Ret (NEW_PEAK, None) at_child)
    by (vm_compute; reflexivity).
  split; [exact Hpk|]. split; [exact Hrun|]. split; [vm_compute; reflexivity|].
  destruct (new_peak_breaks_height_index 8 (chain_a 1) at_genesis at_child (chain_a 0)
              Hpk Hrun) as (ssi & d & ri & _ & Hhole & Hrec).
  split.
  - apply Hhole. vm_compute. split; discriminate.
  - apply Hrec. vm_compute. reflexivity.
Defined.

Lemma create_does_not_rebuild_witness :
  new_weight_proof proof_a (Some records_a) fresh = Ret tt at_a /\
  _block_records at_a <> ∅ /\
  exists self,
    create (_basic_store at_a) the_constants = Ret self self /\
    synced_weight_proof self = Some proof_a /\
    _peak self = Some (chain_a 10) /\
    _block_records self = ∅ /\
    _height_to_hash self = ∅.
Proof.
  split; [vm_compute; reflexivity|]. split.
  - intros He. assert (Hl : _block_records at_a !! 100 = None) by (by rewrite He).
    vm_compute in Hl. discriminate.
  - apply (create_does_not_rebuild (_basic_store at_a) the_constants proof_a
             (chain_a 10) (chain_a 10)); vm_compute; first [reflexivity|discriminate].
Defined.

(** *** C2 *)

(** C2, what the code does.  Chain A (heights 0..10, hashes 100..110) is
    adopted through its weight proof, chain B's blocks of heights 5..11
    (hashes 205..211, parent of 205 is 104) arrive as orphans, and chain B's
    block of height 12 is heavier than the peak and is adopted with fork
    height 4.  Afterwards heights 0..3 still give chain A's hashes, but
    [height_to_hash(4)] raises [KeyError]; heights 5..12 give chain B's block
    records, not its header hashes; chain A's blocks of heights 5..10 are
    still returned by [block_record].  When chain A was received block by
    block instead, the same call raises [KeyError] inside the rollback. *)
Theorem reorg_on_concrete_chains :
  new_weight_proof proof_a (Some records_a) fresh = Ret tt at_a /\
  Forall (fun h => height_to_hash h at_a = Ret (EntryHash (100 + h)) at_a) (heights 0 10) /\
  receive_all 16 (chain_b <$> heights 5 11) at_a
  = (replicate 7 (ADDED_AS_ORPHAN, None), Some at_b11) /\
  find_fork_point_in_chain (record_added (Scenario.record_of_header (chain_b 12)) at_b11)
    (Scenario.record_of_header (chain_b 12)) (chain_a 10) = 4%Z /\
  receive_block 16 (chain_b 12) at_b11 = Ret (NEW_PEAK, None) at_b /\
  Forall (fun h => height_to_hash h at_b = Ret (EntryHash (100 + h)) at_b) (heights 0 3) /\
  height_to_hash 4 at_b = Raise KeyError at_b /\
  Forall (fun h => height_to_hash h at_b
                   = Ret (EntryRecord (Scenario.record_of_header (chain_b h))) at_b)
    (heights 5 12) /\
  Forall (fun h => block_record (100 + h) at_b
                   = Ret (Scenario.record_of_header (chain_a h)) at_b) (heights 5 10) /\
  (receive_all 16 (chain_a <$> heights 0 10) fresh).1 = replicate 11 (NEW_PEAK, None) /\
  (exists s, receive_block 16 (chain_b 12) at_b11_by_blocks = Raise KeyError s).
Proof.
  split; [vm_compute; reflexivity|].
  split; [repeat (constructor; [vm_compute; reflexivity|]); constructor|].
  split; [vm_compute; reflexivity|].
  split; [vm_compute; reflexivity|].
  split; [vm_compute; reflexivity|].
  split; [repeat (constructor; [vm_compute; reflexivity|]); constructor|].
  split; [vm_compute; reflexivity|].
  split; [repeat (constructor; [vm_compute; reflexivity|]); constructor|].
  split; [repeat (constructor; [vm_compute; reflexivity|]); constructor|].
  split; [vm_compute; reflexivity|].
  eexists. vm_compute. reflexivity.
Qed.

(** ** The further properties on concrete chains *)

Lemma scenario_accepted (block : HeaderBlock.t) (s : WalletBlockchain) :
  contains_block s (HeaderBlock.header_hash block) = false ->
  (HeaderBlock.height block = 0 \/
   is_Some (_block_records s !! HeaderBlock.prev_header_hash block)) ->
  HeaderBlock.header_hash block <> 0 ->
  0 ∉ HeaderBlock.finished_sub_slots block ->
  accepted s block 1.
Proof.
  intros Hnew Hparent Hhash Hslots. split; [done|].
  exists (SUB_SLOT_ITERS_STARTING (constants s)), (DIFFICULTY_STARTING (constants s)).
  split.
  - unfold validation_params.
    destruct (N.eqb_spec (HeaderBlock.height block) 0); [done|].
    rewrite try_block_record_lookup.
    destruct Hparent as [?|[r Hr]]; [done|]. by rewrite Hr.
  - simpl. destruct (N.eqb_spec (HeaderBlock.header_hash block) 0); [done|].
    by rewrite bool_decide_eq_false_2.
Qed.

Lemma scenario_well_timed (blocks : list HeaderBlock.t) :
  Forall well_timed (record_of_header <$> blocks).
Proof.
  apply Forall_fmap, Forall_forall. intros b _. unfold well_timed, record_of_header.
  simpl. destruct (HeaderBlock.foliage_transaction_block b); [eauto|done].
Qed.

Lemma add_block_record_then_lookup_witness :
  block_record 100 (after (add_block_record (record_of_header (chain_a 0)) fresh))
  = Ret (record_of_header (chain_a 0))
      (after (add_block_record (record_of_header (chain_a 0)) fresh)) /\
  block_record 100 fresh = Raise KeyError fresh.
Proof.
  destruct (add_block_record_then_lookup (record_of_header (chain_a 0)) fresh)
    as (s' & Hadd & Hget & _ & _ & _ & _ & _ & Hmiss).
  split.
  - rewrite Hadd. exact Hget.
  - apply (Hmiss 100). vm_compute. reflexivity.
Defined.

Lemma rollback_to_height_returns_witness :
  exists s',
    _rollback_to_height 10 at_a = Ret tt s' /\
    _height_to_hash s' !! 10 = None /\
    _height_to_hash s' !! 9 = Some (EntryHash 109) /\
    get_peak_block s' = Some (chain_a 10) /\
    get_header_block (_basic_store s') "PEAK_BLOCK" = None.
Proof.
  destruct (rollback_to_height_returns 10 at_a (chain_a 10))
    as (s' & Hrun & _ & Hlookup & Hpeak & Hstore).
  - vm_compute. reflexivity.
  - intros k Hk. change (HeaderBlock.height (chain_a 10)) with 10 in Hk.
    assert (k = 10) as -> by lia.
    vm_compute. eauto.
  - exists s'. split; [exact Hrun|]. split; [|split; [|done]].
    + rewrite Hlookup. vm_compute. reflexivity.
    + rewrite Hlookup. vm_compute. reflexivity.
Defined.

Lemma rollback_to_height_key_error_witness :
  exists s',
    _rollback_to_height 0 at_child = Raise KeyError s' /\
    _peak s' = Some (chain_a 1) /\
    _basic_store s' = _basic_store at_child.
Proof.
  destruct (rollback_to_height_key_error 0 0 at_child (chain_a 1))
    as (s' & Hrun & _ & Hpeak & Hstore & _).
  - vm_compute. reflexivity.
  - vm_compute. split; discriminate.
  - vm_compute. reflexivity.
  - intros k Hk. lia.
  - exists s'. done.
Defined.

Lemma reorg_needs_every_height_witness :
  receive_block 16 (chain_a 11) at_b = Raise KeyError at_failed /\
  _peak at_failed = Some (chain_b 12) /\
  _height_to_hash at_failed = _height_to_hash at_b.
Proof.
  assert (Hacc : accepted at_b (chain_a 11) 1).
  { apply scenario_accepted; [vm_compute; reflexivity|right; vm_compute; eauto
                             |vm_compute; discriminate|vm_compute; by intros ?%elem_of_nil]. }
  destruct (reorg_needs_every_height 16 (chain_a 11) at_b (chain_b 12) 1 4) as [Hrun _].
  - vm_compute. reflexivity.
  - exact Hacc.
  - vm_compute. reflexivity.
  - vm_compute. split; discriminate.
  - vm_compute. reflexivity.
  - intros k Hk. exfalso. revert Hk.
    change (fork_height_of at_b
              (block_to_block_record (constants at_b) at_b 1 (chain_a 11)) (chain_b 12))
      with (fork_height_of at_b (record_of_header (chain_a 11)) (chain_b 12)).
    assert (Hf : fork_height_of at_b (record_of_header (chain_a 11)) (chain_b 12) = 4%Z)
      by (vm_compute; reflexivity).
    rewrite Hf. lia.
  - split; [|split; vm_compute; reflexivity].
    rewrite Hrun. vm_compute. reflexivity.
Defined.

Lemma receive_block_raise_then_retry_witness :
  receive_block 16 (chain_a 11) at_b = Raise KeyError at_failed /\
  receive_block 16 (chain_a 11) at_failed = Ret (ALREADY_HAVE_BLOCK, None) at_failed.
Proof.
  assert (Hrun : receive_block 16 (chain_a 11) at_b = Raise KeyError at_failed)
    by (vm_compute; reflexivity).
  split; [exact Hrun|].
  apply (receive_block_raise_then_retry scenario_record_hash 16 16 (chain_a 11)
           at_b at_failed KeyError Hrun).
Defined.

Lemma receive_block_without_peak_witness :
  exists r e s',
    receive_block 8 (chain_a 0) fresh = Ret (r, e) s' /\ r <> ADDED_AS_ORPHAN.
Proof.
  destruct (receive_block_without_peak 8 (chain_a 0) fresh eq_refl)
    as (r & e & s' & Hrun & Hr & _).
  exists r, e, s'. done.
Defined.

Lemma orphan_only_adds_record_witness :
  exists required_iters,
    receive_block 8 rival at_child
    = Ret (ADDED_AS_ORPHAN, None)
        (record_added
           (block_to_block_record (constants at_child) at_child required_iters rival)
           at_child).
Proof.
  assert (Hrun : receive_block 8 rival at_child
                 = Ret (ADDED_AS_ORPHAN, None)
                     (record_added (record_of_header rival) at_child))
    by (vm_compute; reflexivity).
  destruct (orphan_only_adds_record 8 rival at_child _ None Hrun)
    as (_ & ri & p & _ & _ & _ & Hs').
  exists ri. rewrite Hrun. f_equal.
Defined.

Lemma receive_block_keeps_weight_proof_witness :
  synced_weight_proof at_b = Some proof_a /\
  get_weight_proof (_basic_store at_b) "SYNCED_WEIGHT_PROOF" = Some proof_a.
Proof.
  destruct (receive_block_keeps_weight_proof 16 (chain_b 12) at_b11 at_b)
    as (_ & Hmem & Hstore).
  - vm_compute. reflexivity.
  - rewrite Hmem, Hstore. split; vm_compute; reflexivity.
Defined.

Lemma empty_index_disconnects_witness :
  create ∅ the_constants = Ret fresh fresh /\
  receive_block 8 stray fresh
  = Ret (DISCONNECTED_BLOCK, Some INVALID_PREV_BLOCK_HASH) fresh.
Proof.
  destruct empty_index_disconnects as [Hdisc Hcreate]. split.
  - assert (Hnone : get_weight_proof (∅ : KeyValStore) "SYNCED_WEIGHT_PROOF" = None)
      by (vm_compute; reflexivity).
    rewrite (Hcreate ∅ the_constants Hnone). vm_compute. reflexivity.
  - apply (Hdisc 8%nat stray fresh); [reflexivity|vm_compute; discriminate].
Defined.

Lemma direct_extension_witness :
  receive_block 8 (chain_a 1) at_genesis = Ret (NEW_PEAK, None) at_child /\
  _height_to_hash at_child
  = <[1 := EntryRecord (record_of_header (chain_a 1))]> (delete 0 (_height_to_hash at_genesis)).
Proof.
  assert (Hacc : accepted at_genesis (chain_a 1) 1).
  { apply scenario_accepted; [vm_compute; reflexivity|right; vm_compute; eauto
                             |vm_compute; discriminate|vm_compute; by intros ?%elem_of_nil]. }
  assert (Hrun := direct_extension 8 (chain_a 1) at_genesis (chain_a 0) 1
                    (record_of_header (chain_a 0))).
  simpl in Hrun. rewrite Hrun.
  - split; vm_compute; reflexivity.
  - vm_compute. reflexivity.
  - exact Hacc.
  - reflexivity.
  - vm_compute. reflexivity.
  - vm_compute. reflexivity.
  - vm_compute. eauto.
  - vm_compute. reflexivity.
  - vm_compute. discriminate.
  - lia.
Defined.

Lemma receive_block_walk_terminates_witness :
  receive_block 2 (chain_a 1) at_genesis <> OutOfFuel /\
  repopulate 1000 3 looped 0 at_loop = OutOfFuel.
Proof.
  destruct receive_block_walk_terminates as [Hends Hloops]. split.
  - apply Hends. intros ri _. simpl.
    assert (Hidx : <[101 := record_of_header (chain_a 1)]> (_block_records at_genesis)
                   = <[101 := record_of_header (chain_a 1)]>
                       (<[100 := record_of_header (chain_a 0)]> ∅))
      by (vm_compute; reflexivity).
    split; [|vm_compute; lia].
    change (heights_decrease
              (<[101 := record_of_header (chain_a 1)]> (_block_records at_genesis))).
    rewrite Hidx. intros h r parent Hr Hparent.
    apply lookup_insert_Some in Hr as [[<- <-]|[_ Hr]].
    + apply lookup_insert_Some in Hparent as [[Heq _]|[_ Hparent]];
        [vm_compute in Heq; discriminate|].
      apply lookup_insert_Some in Hparent as [[_ <-]|[_ Hparent]];
        [vm_compute; reflexivity|by rewrite lookup_empty in Hparent].
    + apply lookup_insert_Some in Hr as [[<- <-]|[_ Hr]];
        [|by rewrite lookup_empty in Hr].
      apply lookup_insert_Some in Hparent as [[Heq _]|[_ Hparent]];
        [vm_compute in Heq; discriminate|].
      apply lookup_insert_Some in Hparent as [[Heq _]|[_ Hparent]];
        [vm_compute in Heq; discriminate|by rewrite lookup_empty in Hparent].
  - apply Hloops; [vm_compute; reflexivity|vm_compute; reflexivity|vm_compute; discriminate].
Defined.

Lemma new_weight_proof_adopts_witness :
  new_weight_proof proof_a (Some records_a) fresh = Ret tt at_a /\
  get_peak_block at_a = Some (chain_a 10) /\
  _height_to_hash at_a !! 7 = Some (EntryHash 107) /\
  try_block_record at_a 107 = Some (record_of_header (chain_a 7)).
Proof.
  destruct (new_weight_proof_adopts proof_a (Some records_a) records_a (chain_a 10) fresh)
    as (s' & Hrun & Hpeak & _ & _ & _ & Hheight & Hhash).
  - left. reflexivity.
  - by left.
  - apply scenario_well_timed.
  - reflexivity.
  - assert (Hs' : s' = at_a).
    { assert (Hat : new_weight_proof proof_a (Some records_a) fresh = Ret tt at_a)
        by (vm_compute; reflexivity).
      rewrite Hat in Hrun. by inversion Hrun. }
    subst s'. split; [exact Hrun|]. split; [exact Hpeak|]. split.
    + rewrite Hheight. vm_compute. reflexivity.
    + rewrite Hhash. vm_compute. reflexivity.
Defined.

Lemma new_weight_proof_latest_timestamp_witness :
  new_weight_proof proof_a (Some records_a) fresh = Ret tt at_a /\
  1007 <= get_latest_timestamp at_a.
Proof.
  destruct (new_weight_proof_latest_timestamp proof_a (Some records_a) records_a
              (chain_a 10) fresh) as (s' & Hrun & _ & Hall & _).
  - left. reflexivity.
  - by left.
  - apply scenario_well_timed.
  - reflexivity.
  - assert (Hs' : s' = at_a).
    { assert (Hat : new_weight_proof proof_a (Some records_a) fresh = Ret tt at_a)
        by (vm_compute; reflexivity).
      rewrite Hat in Hrun. by inversion Hrun. }
    subst s'. split; [exact Hrun|].
    apply (Hall (record_of_header (chain_a 7)) 1007);
      [|vm_compute; reflexivity|vm_compute; reflexivity].
    apply list_elem_of_fmap. exists (chain_a 7). split; [done|].
    apply list_elem_of_fmap. exists 7. split; [done|].
    vm_compute. repeat constructor.
Defined.

Lemma new_weight_proof_never_rolls_back_witness :
  get_peak_height at_short = 3 /\
  contains_height at_a 10 = true /\
  contains_height at_short 10 = true /\
  contains_block at_short 110 = true.
Proof.
  destruct (new_weight_proof_never_rolls_back proof_short
              (Some [record_of_header short_tail]) at_a at_short)
    as (Hheights & Hblocks & _).
  - vm_compute. reflexivity.
  - assert (Hin : contains_height at_a 10 = true) by (vm_compute; reflexivity).
    split; [vm_compute; reflexivity|]. split; [exact Hin|].
    split; [by apply Hheights|]. apply Hblocks. vm_compute. reflexivity.
Defined.

Lemma block_records_never_removed_witness :
  contains_block at_genesis 100 = true /\ contains_block at_child 100 = true.
Proof.
  assert (Hin : contains_block at_genesis 100 = true) by (vm_compute; reflexivity).
  split; [exact Hin|].
  apply (block_records_never_removed at_genesis at_child 100); [|exact Hin].
  apply rtc_once. apply (mutated_receive_block 8%nat (chain_a 1)).
  vm_compute. reflexivity.
Defined.


Lemma peak_stays_persisted_witness :
  peak_persisted at_genesis /\ peak_persisted at_child.
Proof.
  assert (Hinv : peak_persisted at_genesis).
  { intros p Hp. vm_compute in Hp. inversion Hp. vm_compute. reflexivity. }
  split; [exact Hinv|].
  destruct peak_stays_persisted as (Hreceive & _).
  apply (Hreceive 8%nat (chain_a 1) at_genesis (NEW_PEAK, None) at_child Hinv).
  vm_compute. reflexivity.
Defined.

Lemma create_reingests_witness :
  validate_weight_proof proof_a
  = (true, [record_of_header (chain_a 9); record_of_header (chain_a 10)]) /\
  exists self,
    create store_with_proof the_constants = Ret self self /\
    _peak self = Some (chain_a 10) /\
    get_latest_timestamp self = 1010.
Proof.
  assert (Hv : validate_weight_proof proof_a
               = (true, [record_of_header (chain_a 9); record_of_header (chain_a 10)]))
    by (vm_compute; reflexivity).
  split; [exact Hv|].
  destruct (create_reingests store_with_proof the_constants proof_a) as [_ Hok].
  - vm_compute. reflexivity.
  - left. vm_compute. reflexivity.
  - destruct (Hok _ (chain_a 10) Hv) as (self & Hrun & Hpeak & _ & _ & _ & Hts).
    + apply (scenario_well_timed [chain_a 9; chain_a 10]).
    + reflexivity.
    + exists self. split; [exact Hrun|]. split; [exact Hpeak|].
      rewrite Hts. vm_compute. reflexivity.
Defined.

Lemma peak_survives_restart_witness :
  exists s' self,
    set_peak_block (chain_a 0) (Some 1000) fresh = Ret tt s' /\
    get_latest_timestamp s' = 1000 /\
    create (_basic_store s') the_constants = Ret self self /\
    get_peak_block self = Some (chain_a 0) /\
    get_latest_timestamp self = 0.
Proof.
  destruct (peak_survives_restart (chain_a 0) (Some 1000) fresh the_constants)
    as (s' & self & Hset & _ & _ & Hcreate & Hpeak & _ & Hts & _).
  - vm_compute. reflexivity.
  - exists s', self. split; [exact Hset|]. split; [|done].
    assert (Hs' : set_peak_block (chain_a 0) (Some 1000) fresh
                  = Ret tt (after (set_peak_block (chain_a 0) (Some 1000) fresh)))
      by (vm_compute; reflexivity).
    rewrite Hs' in Hset. inversion Hset. vm_compute. reflexivity.
Defined.

Lemma receive_block_result_codes_witness :
  receive_block 8 rejected at_genesis = Ret (INVALID_BLOCK, Some (OTHER_ERR 7)) at_genesis /\
  exists sub_slot_iters difficulty,
    validation_params at_genesis rejected = Some (sub_slot_iters, difficulty) /\
    ((exists required_iters error,
        validate_finished_header_block (constants at_genesis) at_genesis rejected
          difficulty sub_slot_iters = (required_iters, Some error) /\
        Some (OTHER_ERR 7) = Some (code error)) \/
     (validate_finished_header_block (constants at_genesis) at_genesis rejected
        difficulty sub_slot_iters = (None, None) /\
      Some (OTHER_ERR 7) = Some INVALID_POSPACE)).
Proof.
  assert (Hrun : receive_block 8 rejected at_genesis
                 = Ret (INVALID_BLOCK, Some (OTHER_ERR 7)) at_genesis)
    by (vm_compute; reflexivity).
  split; [exact Hrun|].
  exact (receive_block_result_codes 8 rejected at_genesis at_genesis INVALID_BLOCK
           (Some (OTHER_ERR 7)) Hrun).
Defined.
